(** * Raydium SOL-USDC liquidity manager: allocation, ticks, retries, cycle

    A shallow embedding of the decision core of the bot:
    - [Helpers.calculateOptimalAmounts] and [Helpers.retry] (utils/helpers),
    - [Blockchain.sendTransactionWithRetry] (services/blockchain),
    - [RaydiumService] (services/raydium): price, ticks, positions, sizing,
    - [LiquidityManager.managePositions] (services/liquidity).

    JavaScript numbers that carry prices and amounts are idealised as real
    numbers (no rounding, no NaN, no infinities); counters, tick indexes and
    millisecond delays are integers, small enough for [number] to hold them
    exactly.  Promises are run to completion in program order, so [await] is
    sequencing; a rejected promise is a thrown value, known by its message.
    The Raydium SDK, the RPC node, the wallet and the configuration are an
    environment [Env] the code is run against; what a run does to the outside
    is kept as a trace of events.  Of the log lines only those of the
    orchestrator are kept, by their fixed text. *)

From Stdlib Require Import Reals Lra Lia ZArith List String Bool.
From Equations Require Import Equations.
From Equations.Prop Require Import Logic.
Import ListNotations.

Local Open Scope R_scope.

(** ** Numbers: comparisons as the booleans the code branches on *)

Definition Rltb (x y : R) : bool := if Rlt_dec x y then true else false.
Definition Rleb (x y : R) : bool := if Rle_dec x y then true else false.
Definition Rgeb (x y : R) : bool := if Rge_dec x y then true else false.

(** ** Constants (constants/index) *)

Module CONSTANTS.
Module POSITION.
Definition MIN_POSITION_VALUE_USDC : R := 10.
Definition MIN_SOL_AMOUNT : R := 1 / 100.
Definition MIN_USDC_AMOUNT : R := 5.
End POSITION.
End CONSTANTS.

(** ** Allocation results *)

Record Amounts : Type := mkAmounts { solAmount : R; usdcAmount : R }.

(** Value of an allocation in quote units at a price. *)
Definition valueAt (currentPrice : R) (a : Amounts) : R :=
  solAmount a * currentPrice + usdcAmount a.

(** The split the specification prescribes for a price strictly inside the
    range (the reference the two implementations are compared with). *)
Definition referenceWeight (lowerPrice upperPrice currentPrice : R) : R :=
  (sqrt upperPrice - sqrt currentPrice) / (sqrt upperPrice - sqrt lowerPrice).

Definition referenceAmounts (lowerPrice upperPrice currentPrice totalValue : R)
  : Amounts :=
  if Rleb currentPrice lowerPrice then mkAmounts 0 totalValue
  else if Rgeb currentPrice upperPrice then mkAmounts (totalValue / currentPrice) 0
  else
    let weight := referenceWeight lowerPrice upperPrice currentPrice in
    mkAmounts ((totalValue / currentPrice) * (1 - weight)) (totalValue * weight).

(** A leg is dust when it is non-zero and below its minimum. *)
Definition dustFree (a : Amounts) : Prop :=
  (solAmount a = 0 \/ CONSTANTS.POSITION.MIN_SOL_AMOUNT <= solAmount a) /\
  (usdcAmount a = 0 \/ CONSTANTS.POSITION.MIN_USDC_AMOUNT <= usdcAmount a).

(** ** Thrown values and outcomes *)

(** What a thrown [Error] says.  The only message the code builds from
    another one is that of the exhausted submitter, which prints
    [undefined] when it has seen no error. *)
Inductive Message : Type :=
| Text (s : string)
| Undefined
| TransactionFailedAfter (retries : Z) (lastMessage : Message).

(** [lastError?.message] *)
Definition messageOf (lastError : option Message) : Message :=
  match lastError with
  | Some m => m
  | None => Undefined
  end.

Inductive outcome (A : Type) : Type :=
| Returned (a : A)
| Thrown (e : Message).
Arguments Returned {A} a.
Arguments Thrown {A} e.

(** ** Data read from the chain *)

Record PoolInfo : Type := mkPoolInfo { sqrtPriceX64 : Z; tickSpacing : Z }.

Record Position : Type := mkPosition {
  positionId : string;
  ownerAddress : string;
  p_lowerPrice : R;
  p_upperPrice : R;
  p_solAmount : R;
  p_usdcAmount : R
}.

Record Balances : Type := mkBalances { sol : R; usdc : R }.

(** A built, unsigned transaction: a handle the chain client answers to. *)
Definition Transaction : Type := nat.

(** ** What a run does that an observer can see *)

Inductive Notification : Type :=
| PriceUpdate (current lowerBound upperBound : R)
| PositionWithdrawn (id : string)
| PositionCreated (solAmount usdcAmount lowerPrice upperPrice : R)
| TransactionNote (type : string) (signature : string)
| BalanceNote (b : Balances)
| ErrorNote (context : string) (positionId : option string) (error : Message).

Inductive Event : Type :=
| EvSubmit (attemptNumber : Z)   (* fresh blockhash, then sendAndConfirmTransaction *)
| EvCall (attemptNumber : Z)     (* [retry] calls its [fn] *)
| EvSleep (ms : Z)
| EvClosePosition (id : string)  (* RaydiumService.closePosition entered *)
| EvCreatePosition (solAmount usdcAmount lowerPrice upperPrice : R)
| EvNotify (n : Notification)
| EvLog (line : string).         (* the fixed text of an orchestrator log line *)

(** ** The world a cycle runs in *)

Record World : Type := mkWorld {
  connection : bool;          (* services/blockchain: [connection] is set *)
  poolInfo : option PoolInfo; (* RaydiumService.poolInfo *)
  poolKeys : bool;            (* RaydiumService.poolKeys is set *)
  isInitialized : bool;       (* LiquidityManager.isInitialized *)
  clock : nat;                (* external queries answered so far *)
  trace : list Event          (* oldest first *)
}.

(** Collaborators outside the repository: configuration, the Raydium SDK,
    the RPC node and the wallet.  Network answers are indexed by the clock,
    so successive queries may answer differently. *)
Record Env : Type := mkEnv {
  keypairPublicKey : string;
  priceRangePercent : R;
  minSolBalance : R;
  maxRetryAttempts : Z;
  getCurrencyAmount : Z -> R;
  priceToTickIndex : R -> Z -> Z;
  fetchMultiplePoolInfos : nat -> outcome (list PoolInfo);
  fetchMultiplePoolTickArrays : nat -> outcome (list Position);
  getTokenBalances : nat -> outcome Balances;
  makeClosePositionInstructionSimple : nat -> string -> outcome Transaction;
  makeOpenPositionInstructionSimple : nat -> Z -> Z -> R -> R -> outcome Transaction;
  sendAndConfirmTransaction : Transaction -> Z -> outcome string
}.

(** ** A state-and-exception monad for [async] code *)

Definition M (A : Type) : Type := World -> outcome A * World.

Definition ret {A : Type} (a : A) : M A := fun w => (Returned a, w).

Definition bind {A B : Type} (m : M A) (k : A -> M B) : M B :=
  fun w =>
    match m w with
    | (Returned a, w') => k a w'
    | (Thrown e, w') => (Thrown e, w')
    end.

Definition throw {A : Type} (e : Message) : M A := fun w => (Thrown e, w).

Definition tryCatch {A : Type} (body : M A) (handler : Message -> M A) : M A :=
  fun w =>
    match body w with
    | (Returned a, w') => (Returned a, w')
    | (Thrown e, w') => handler e w'
    end.

Definition lift {A : Type} (o : outcome A) : M A := fun w => (o, w).

Definition get : M World := fun w => (Returned w, w).

Definition emit (ev : Event) : M unit :=
  fun w => (Returned tt,
            mkWorld (connection w) (poolInfo w) (poolKeys w) (isInitialized w)
                    (clock w) (trace w ++ [ev])).

Definition query {A : Type} (ask : nat -> outcome A) : M A :=
  fun w => (ask (clock w),
            mkWorld (connection w) (poolInfo w) (poolKeys w) (isInitialized w)
                    (S (clock w)) (trace w)).

Definition setPoolKeys : M unit :=
  fun w => (Returned tt,
            mkWorld (connection w) (poolInfo w) true (isInitialized w)
                    (clock w) (trace w)).

Definition setPoolInfo (p : PoolInfo) : M unit :=
  fun w => (Returned tt,
            mkWorld (connection w) (Some p) (poolKeys w) (isInitialized w)
                    (clock w) (trace w)).

Definition setInitialized : M unit :=
  fun w => (Returned tt,
            mkWorld (connection w) (poolInfo w) (poolKeys w) true
                    (clock w) (trace w)).

Declare Scope async_scope.
Delimit Scope async_scope with async.
Notation "x <- m ;; k" := (bind m (fun x => k))
  (at level 61, m at next level, right associativity) : async_scope.
Notation "m ;;; k" := (bind m (fun _ => k))
  (at level 61, right associativity) : async_scope.
Local Open Scope async_scope.

Definition log (line : string) : M unit := emit (EvLog line).
Definition notify (n : Notification) : M unit := emit (EvNotify n).

(** ** utils/helpers *)

Module Helpers.

(** The three-way split of [calculateOptimalAmounts], before the
    minimum thresholds are applied. *)
Definition splitByPosition (lowerPrice upperPrice currentPrice totalValueUsdc : R)
  : Amounts :=
  let sqrtPrice := sqrt currentPrice in
  let sqrtLowerPrice := sqrt lowerPrice in
  let sqrtUpperPrice := sqrt upperPrice in
  if Rleb currentPrice lowerPrice then
    mkAmounts 0 totalValueUsdc
  else if Rgeb currentPrice upperPrice then
    mkAmounts (totalValueUsdc / currentPrice) 0
  else
    let positionInRange :=
      (sqrtPrice - sqrtLowerPrice) / (sqrtUpperPrice - sqrtLowerPrice) in
    mkAmounts ((totalValueUsdc / currentPrice) * (1 - positionInRange))
              (totalValueUsdc * positionInRange).

(** The two threshold statements, in the order of the source. *)
Definition applyMinimumThresholds (currentPrice totalValueUsdc : R) (a : Amounts)
  : Amounts :=
  let a1 :=
    if Rltb (solAmount a) CONSTANTS.POSITION.MIN_SOL_AMOUNT
    then mkAmounts 0 totalValueUsdc
    else a in
  if Rltb (usdcAmount a1) CONSTANTS.POSITION.MIN_USDC_AMOUNT
  then mkAmounts (totalValueUsdc / currentPrice) 0
  else a1.

Definition calculateOptimalAmounts
    (lowerPrice upperPrice currentPrice totalValueUsdc : R) : Amounts :=
  applyMinimumThresholds currentPrice totalValueUsdc
    (splitByPosition lowerPrice upperPrice currentPrice totalValueUsdc).

(** After the loop of [retry]: [throw lastError || new Error(...)]. *)
Definition throwLast {T : Type} (lastError : option Message) : M T :=
  match lastError with
  | Some e => throw e
  | None => throw (Text "Operation failed after retries")
  end.

(** The [while (attempts < retries)] loop of [retry]; [fn k] is what the
    [k]-th call of [fn] comes to, [k] counting from 1. *)
Equations? retryLoop {T : Type} (fn : Z -> outcome T)
    (retries baseDelay attempts : Z) (lastError : option Message) : M T
    by wf (Z.to_nat (retries - attempts)) lt :=
  retryLoop fn retries baseDelay attempts lastError
    with inspect (attempts <? retries)%Z := {
    | exist _ true Hlt =>
        tryCatch
          (emit (EvCall (attempts + 1)) ;;;
           lift (fn (attempts + 1)%Z))
          (fun error =>
             let attempts' := (attempts + 1)%Z in
             let lastError' := Some error in
             if (attempts' >=? retries)%Z
             then throwLast lastError'
             else
               let delay := (baseDelay * 2 ^ attempts')%Z in
               emit (EvSleep delay) ;;;
               retryLoop fn retries baseDelay attempts' lastError')
    | exist _ false _ => throwLast lastError }.
Proof. apply Z.ltb_lt in Hlt. lia. Qed.

Definition retry {T : Type} (fn : Z -> outcome T) (retries baseDelay : Z) : M T :=
  retryLoop fn retries baseDelay 0 None.

End Helpers.

(** ** services/blockchain *)

Module Blockchain.

(** The [while (attempts < retries)] loop of [sendTransactionWithRetry].
    [send k] is what the [k]-th pass through the [try] block comes to
    (blockhash refresh and [sendAndConfirmTransaction]); [k] counts
    from 1. *)
Equations? sendLoop (send : Z -> outcome string) (retries attempts : Z)
    (lastError : option Message) : M string
    by wf (Z.to_nat (retries - attempts)) lt :=
  sendLoop send retries attempts lastError
    with inspect (attempts <? retries)%Z := {
    | exist _ true Hlt =>
        tryCatch
          (emit (EvSubmit (attempts + 1)) ;;;
           signature <- lift (send (attempts + 1)%Z) ;;
           ret signature)
          (fun error =>
             let attempts' := (attempts + 1)%Z in
             let lastError' := Some error in
             (if (attempts' <? retries)%Z
              then emit (EvSleep (2 ^ attempts' * 1000))
              else ret tt) ;;;
             sendLoop send retries attempts' lastError')
    | exist _ false _ =>
        throw (TransactionFailedAfter retries (messageOf lastError)) }.
Proof. apply Z.ltb_lt in Hlt. lia. Qed.

Definition sendTransactionWithRetry (send : Z -> outcome string) (retries : Z)
  : M string :=
  w <- get ;;
  if negb (connection w)
  then throw (Text "Solana connection not initialized")
  else sendLoop send retries 0 None.

End Blockchain.

(** ** services/raydium *)

Record PriceRange : Type := mkPriceRange { lowerBound : R; upperBound : R }.

Record TickIndexes : Type := mkTickIndexes { lowerTickIndex : Z; upperTickIndex : Z }.

(** [Math.floor(a / b)] and [Math.ceil(a / b)] on integers, [b] non-zero:
    [Z.div] rounds towards minus infinity. *)
Definition floorDiv (a b : Z) : Z := (a / b)%Z.
Definition ceilDiv (a b : Z) : Z := (- ((- a) / b))%Z.

Module RaydiumService.
Section WithEnv.
Variable env : Env.

Definition fetchPoolInfo : M unit :=
  tryCatch
    (setPoolKeys ;;;
     poolInfos <- query (fetchMultiplePoolInfos env) ;;
     match poolInfos with
     | [] => throw (Text "Pool not found")
     | first :: _ => setPoolInfo first
     end)
    (fun error => throw error).

Definition initialize : M unit :=
  tryCatch fetchPoolInfo (fun error => throw error).

Definition getCurrentPrice : M R :=
  w <- get ;;
  (match poolInfo w with
   | None => fetchPoolInfo
   | Some _ => ret tt
   end) ;;;
  w' <- get ;;
  match poolInfo w' with
  | None => throw (Text "Pool info not available")
  | Some info => ret (getCurrencyAmount env (sqrtPriceX64 info))
  end.

Definition getPriceRange : M PriceRange :=
  currentPrice <- getCurrentPrice ;;
  let rangePercent := priceRangePercent env / 100 in
  ret (mkPriceRange (currentPrice * (1 - rangePercent))
                    (currentPrice * (1 + rangePercent))).

Definition calculateTickIndexes (lowerPrice upperPrice : R) : M TickIndexes :=
  w <- get ;;
  match poolInfo w with
  | None => throw (Text "Pool info not available")
  | Some info =>
      let tickSpacing := tickSpacing info in
      let lowerTickIndex := priceToTickIndex env lowerPrice tickSpacing in
      let upperTickIndex := priceToTickIndex env upperPrice tickSpacing in
      let lowerTickIndex := (floorDiv lowerTickIndex tickSpacing * tickSpacing)%Z in
      let upperTickIndex := (ceilDiv upperTickIndex tickSpacing * tickSpacing)%Z in
      ret (mkTickIndexes lowerTickIndex upperTickIndex)
  end.

Definition createPosition (solAmount usdcAmount lowerPrice upperPrice : R)
  : M string :=
  emit (EvCreatePosition solAmount usdcAmount lowerPrice upperPrice) ;;;
  w <- get ;;
  if match poolInfo w with None => true | Some _ => false end || negb (poolKeys w)
  then throw (Text "Pool info not available")
  else
    tryCatch
      (ticks <- calculateTickIndexes lowerPrice upperPrice ;;
       transaction <- query (fun c =>
         makeOpenPositionInstructionSimple env c
           (lowerTickIndex ticks) (upperTickIndex ticks) solAmount usdcAmount) ;;
       signature <- Blockchain.sendTransactionWithRetry
                      (sendAndConfirmTransaction env transaction)
                      (maxRetryAttempts env) ;;
       ret signature)
      (fun error => throw error).

Definition getPositions : M (list Position) :=
  w <- get ;;
  (match poolInfo w with
   | None => fetchPoolInfo
   | Some _ => ret tt
   end) ;;;
  tryCatch
    (positions <- query (fetchMultiplePoolTickArrays env) ;;
     let walletPositions :=
       filter (fun position =>
                 String.eqb (ownerAddress position) (keypairPublicKey env))
              positions in
     ret walletPositions)
    (fun error => ret []).

Definition isPositionInRange (position : Position) : M bool :=
  currentPrice <- getCurrentPrice ;;
  ret (Rgeb currentPrice (p_lowerPrice position)
       && Rleb currentPrice (p_upperPrice position)).

Definition closePosition (positionId : string) : M string :=
  emit (EvClosePosition positionId) ;;;
  w <- get ;;
  if match poolInfo w with None => true | Some _ => false end || negb (poolKeys w)
  then throw (Text "Pool info not available")
  else
    tryCatch
      (transaction <- query (fun c =>
         makeClosePositionInstructionSimple env c positionId) ;;
       signature <- Blockchain.sendTransactionWithRetry
                      (sendAndConfirmTransaction env transaction)
                      (maxRetryAttempts env) ;;
       ret signature)
      (fun error => throw error).

(** [getOptimalAmounts] once the current price is read. *)
Definition splitByWeight (currentPrice lowerPrice upperPrice totalValue : R)
  : Amounts :=
  let sqrtPriceLower := sqrt lowerPrice in
  let sqrtPriceUpper := sqrt upperPrice in
  let sqrtPriceCurrent := sqrt currentPrice in
  if Rleb currentPrice lowerPrice then
    mkAmounts 0 totalValue
  else if Rgeb currentPrice upperPrice then
    mkAmounts (totalValue / currentPrice) 0
  else
    let weight :=
      (sqrtPriceUpper - sqrtPriceCurrent) / (sqrtPriceUpper - sqrtPriceLower) in
    mkAmounts ((totalValue / currentPrice) * (1 - weight)) (totalValue * weight).

Definition getOptimalAmounts (lowerPrice upperPrice totalValue : R) : M Amounts :=
  currentPrice <- getCurrentPrice ;;
  ret (splitByWeight currentPrice lowerPrice upperPrice totalValue).

End WithEnv.
End RaydiumService.

(** ** services/liquidity *)

Module LiquidityManager.
Section WithEnv.
Variable env : Env.

Definition initialize : M unit :=
  w <- get ;;
  if isInitialized w then ret tt
  else
    log "Initializing liquidity manager" ;;;
    tryCatch
      (RaydiumService.initialize env ;;;
       currentPrice <- RaydiumService.getCurrentPrice env ;;
       range <- RaydiumService.getPriceRange env ;;
       log "Current SOL price" ;;;
       log "Target price range" ;;;
       setInitialized ;;;
       log "Liquidity manager initialized successfully")
      (fun error =>
         log "Failed to initialize liquidity manager" ;;;
         throw error).

(** The [for (const position of positions)] loop of [managePositions];
    the accumulator is [positionClosed]. *)
Fixpoint closeOutOfRange (positions : list Position) (positionClosed : bool)
  : M bool :=
  match positions with
  | [] => ret positionClosed
  | position :: rest =>
      isInRange <- RaydiumService.isPositionInRange env position ;;
      positionClosed' <-
        (if negb isInRange then
           log "Position is out of range, closing" ;;;
           tryCatch
             (signature <- RaydiumService.closePosition env (positionId position) ;;
              notify (PositionWithdrawn (positionId position)) ;;;
              notify (TransactionNote "withdraw" signature) ;;;
              ret true)
             (fun error =>
                log "Failed to close position" ;;;
                notify (ErrorNote "Failed to close position"
                                  (Some (positionId position)) error) ;;;
                ret positionClosed)
         else
           log "Position is in range, keeping" ;;;
           ret positionClosed) ;;
      closeOutOfRange rest positionClosed'
  end.

Definition minSolForPosition : R := 1 / 10.
Definition minUsdcForPosition : R := 10.

(** The last block of [managePositions]: re-read the balances and open a
    position when both minimums are met. *)
Definition openIfFunded (currentPrice lowerBound upperBound : R) : M unit :=
  updatedBalances <- query (getTokenBalances env) ;;
  let availableSol := sol updatedBalances - minSolBalance env in
  if Rgeb availableSol minSolForPosition
     && Rgeb (usdc updatedBalances) minUsdcForPosition
  then
    log "Creating new position with available funds" ;;;
    let totalValueUSDC := availableSol * currentPrice + usdc updatedBalances in
    amounts <- RaydiumService.getOptimalAmounts env lowerBound upperBound
                 (totalValueUSDC * (98 / 100)) ;;
    let finalSolAmount := Rmin (solAmount amounts) availableSol in
    let finalUsdcAmount := Rmin (usdcAmount amounts) (usdc updatedBalances) in
    tryCatch
      (signature <- RaydiumService.createPosition env
                      finalSolAmount finalUsdcAmount lowerBound upperBound ;;
       notify (PositionCreated finalSolAmount finalUsdcAmount
                               lowerBound upperBound) ;;;
       notify (TransactionNote "deposit" signature) ;;;
       newBalances <- query (getTokenBalances env) ;;
       notify (BalanceNote newBalances) ;;;
       log "New position created successfully")
      (fun error =>
         log "Failed to create new position" ;;;
         notify (ErrorNote "Failed to create new position" None error))
  else
    log "Insufficient funds to create a new position" ;;;
    log "Requires minimum" ;;;
    log "Available".

Definition managePositions : M unit :=
  w <- get ;;
  (if negb (isInitialized w) then initialize else ret tt) ;;;
  tryCatch
    (log "Starting position management cycle" ;;;
     currentPrice <- RaydiumService.getCurrentPrice env ;;
     range <- RaydiumService.getPriceRange env ;;
     notify (PriceUpdate currentPrice (lowerBound range) (upperBound range)) ;;;
     balances <- query (getTokenBalances env) ;;
     log "Current balances" ;;;
     positions <- RaydiumService.getPositions env ;;
     log "Found existing positions" ;;;
     positionClosed <- closeOutOfRange positions false ;;
     (if positionClosed : bool then
        updatedBalances <- query (getTokenBalances env) ;;
        notify (BalanceNote updatedBalances) ;;;
        log "Updated balances after closing positions"
      else ret tt) ;;;
     openIfFunded currentPrice (lowerBound range) (upperBound range) ;;;
     log "Position management cycle completed")
    (fun error =>
       log "Error managing positions" ;;;
       notify (ErrorNote "Error during position management cycle" None error)).

End WithEnv.
End LiquidityManager.

(** ** Reading traces *)

(** The world after some more events. *)
Definition record (events : list Event) (w : World) : World :=
  mkWorld (connection w) (poolInfo w) (poolKeys w) (isInitialized w)
          (clock w) (trace w ++ events).

(** Attempt numbers, in order: submissions and [fn] calls. *)
Definition attemptsOf (events : list Event) : list Z :=
  flat_map (fun ev => match ev with
                      | EvSubmit k | EvCall k => [k]
                      | _ => []
                      end) events.

Definition sleepsOf (events : list Event) : list Z :=
  flat_map (fun ev => match ev with
                      | EvSleep ms => [ms]
                      | _ => []
                      end) events.

(** [lowerPrice <= currentPrice <= upperPrice], as [isPositionInRange]
    tests it. *)
Definition inRangeAt (currentPrice : R) (position : Position) : bool :=
  Rgeb currentPrice (p_lowerPrice position)
  && Rleb currentPrice (p_upperPrice position).

(** What [getPositions] makes of the answer to its query at clock [c]. *)
Definition surveyed (env : Env) (c : nat) : list Position :=
  match fetchMultiplePoolTickArrays env c with
  | Returned positions =>
      filter (fun position =>
                String.eqb (ownerAddress position) (keypairPublicKey env))
             positions
  | Thrown _ => []
  end.

(** Positions handed to [closePosition], in order. *)
Definition closeCalls (events : list Event) : list string :=
  flat_map (fun ev => match ev with
                      | EvClosePosition id => [id]
                      | _ => []
                      end) events.

(** Arguments handed to [createPosition], in order. *)
Definition createCalls (events : list Event) : list (R * R * R * R) :=
  flat_map (fun ev => match ev with
                      | EvCreatePosition s u lo hi => [(s, u, lo, hi)]
                      | _ => []
                      end) events.

(** Positions whose close was reported, as withdrawn or as failed. *)
Definition closeReports (events : list Event) : list string :=
  flat_map (fun ev => match ev with
                      | EvNotify (PositionWithdrawn id) => [id]
                      | EvNotify (ErrorNote _ (Some id) _) => [id]
                      | _ => []
                      end) events.

(** [w'] is [w] after the events [events]: the same connection and pool
    state, a longer trace (the clock may have advanced). *)
Definition extends (events : list Event) (w w' : World) : Prop :=
  connection w' = connection w
  /\ poolInfo w' = poolInfo w
  /\ poolKeys w' = poolKeys w
  /\ isInitialized w' = isInitialized w
  /\ trace w' = trace w ++ events.

(** [w'] is [w] after events among which nothing was closed. *)
Definition noCloseBetween (w w' : World) : Prop :=
  exists events, extends events w w' /\ closeCalls events = [].

(** Events of the retry protocol only. *)
Definition retryOnly (events : list Event) : Prop :=
  Forall (fun ev => match ev with
                    | EvSubmit _ | EvCall _ | EvSleep _ => True
                    | _ => False
                    end) events.

(** What a run of [remaining] attempts that all fail leaves behind, the
    first of them being attempt [failed + 1]: a pause after each attempt
    but the last. *)
Fixpoint exhaustedTrace (attemptEvent : Z -> Event) (delay : Z -> Z)
    (remaining : nat) (failed : Z) : list Event :=
  match remaining with
  | O => []
  | S O => [attemptEvent (failed + 1)%Z]
  | S (S _ as rest) =>
      attemptEvent (failed + 1)%Z :: EvSleep (delay (failed + 1)%Z)
        :: exhaustedTrace attemptEvent delay rest (failed + 1)%Z
  end.

(** ** Sample worlds and environments

    A pool at price 100 with tick spacing 10, a wallet of 1 SOL and
    100 USDC holding one position around the price and one below it. *)

Definition samplePool : PoolInfo := mkPoolInfo 0 10.

Definition samplePositions : list Position :=
  [ mkPosition "inside" "wallet" 95 105 1 100;
    mkPosition "below" "wallet" 80 90 2 0;
    mkPosition "foreign" "someone else" 80 90 3 0 ].

(** Nothing loaded yet. *)
Definition coldWorld : World := mkWorld true None false false 0 [].

(** After a successful start-up. *)
Definition warmWorld : World := mkWorld true (Some samplePool) true true 0 [].

(** Every network query and every submission fails. *)
Definition offlineEnv : Env :=
  mkEnv "wallet" 5 (5 / 100) 3
        (fun _ => 100)
        (fun price _ => if Rltb price 100 then (-23)%Z else 17%Z)
        (fun _ => Thrown (Text "network down"))
        (fun _ => Thrown (Text "network down"))
        (fun _ => Thrown (Text "network down"))
        (fun _ _ => Thrown (Text "network down"))
        (fun _ _ _ _ _ => Thrown (Text "network down"))
        (fun _ _ => Thrown (Text "confirmation timeout")).

(** Queries are answered; submissions time out. *)
Definition sampleEnv : Env :=
  mkEnv "wallet" 5 (5 / 100) 3
        (fun _ => 100)
        (fun price _ => if Rltb price 100 then (-23)%Z else 17%Z)
        (fun _ => Returned [samplePool])
        (fun _ => Returned samplePositions)
        (fun _ => Returned (mkBalances 1 100))
        (fun c _ => Returned c)
        (fun c _ _ _ _ => Returned c)
        (fun _ _ => Thrown (Text "confirmation timeout")).

(** A wallet of 0.1 SOL and 5 USDC. *)
Definition poorEnv : Env :=
  mkEnv "wallet" 5 (5 / 100) 3
        (fun _ => 100)
        (fun price _ => if Rltb price 100 then (-23)%Z else 17%Z)
        (fun _ => Returned [samplePool])
        (fun _ => Returned samplePositions)
        (fun _ => Returned (mkBalances (1 / 10) 5))
        (fun c _ => Returned c)
        (fun c _ _ _ _ => Returned c)
        (fun _ _ => Thrown (Text "confirmation timeout")).

(** ** More on traces *)

(** What a run leaves behind that fails [failures] times and then succeeds,
    the first attempt being attempt [failed + 1]: a pause after every
    failed attempt. *)
Fixpoint retriedTrace (attemptEvent : Z -> Event) (delay : Z -> Z)
    (failures : nat) (failed : Z) : list Event :=
  match failures with
  | O => [attemptEvent (failed + 1)%Z]
  | S rest =>
      attemptEvent (failed + 1)%Z :: EvSleep (delay (failed + 1)%Z)
        :: retriedTrace attemptEvent delay rest (failed + 1)%Z
  end.

(** ** index: the scheduled check *)

Module Main.

(** The callback [main] hands to [cron.schedule]. *)
Definition scheduledCheck (env : Env) : M unit :=
  tryCatch
    (log "Running scheduled position check and management..." ;;;
     LiquidityManager.managePositions env)
    (fun error =>
       log "Error during scheduled position management:" ;;;
       notify (ErrorNote "Scheduled position management failed" None error)).

End Main.

(** ** Messages as text *)

From Stdlib Require DecimalString.

(** How JavaScript prints an integer inside a template literal. *)
Definition printInteger (n : Z) : string :=
  DecimalString.NilZero.string_of_int (Z.to_int n).

(** [error.message] as a string. *)
Fixpoint messageText (m : Message) : string :=
  match m with
  | Text s => s
  | Undefined => "undefined"
  | TransactionFailedAfter retries lastMessage =>
      ("Transaction failed after " ++ printInteger retries ++ " attempts: "
       ++ messageText lastMessage)%string
  end.

(** ** services/blockchain: the connection *)

Module Connection.

Definition setConnection : M unit :=
  fun w => (Returned tt,
            mkWorld true (poolInfo w) (poolKeys w) (isInitialized w)
                    (clock w) (trace w)).

(** [initializeConnection]; [getLatestBlockhash] is the node's answer to
    the test query.  The module variable is assigned before the test. *)
Definition initializeConnection (getLatestBlockhash : nat -> outcome string)
  : M unit :=
  w <- get ;;
  if connection w then ret tt
  else
    setConnection ;;;
    tryCatch
      (blockhash <- query getLatestBlockhash ;;
       log "Successfully connected to Solana" ;;;
       ret tt)
      (fun error =>
         log "Failed to connect to Solana:" ;;;
         throw (Text ("Failed to connect to Solana network: "
                      ++ messageText error)%string)).

End Connection.

(** ** utils/helpers: display *)

Module Display.

(** An index argument of [String.prototype.slice], made absolute. *)
Definition sliceIndex (len i : Z) : Z :=
  if (i <? 0)%Z then Z.max (len + i) 0 else Z.min i len.

(** [s.slice(start, stop)]; [stop] is absent in [s.slice(start)]. *)
Definition slice (s : string) (start : Z) (stop : option Z) : string :=
  let len := Z.of_nat (String.length s) in
  let from := sliceIndex len start in
  let to := match stop with
            | Some e => sliceIndex len e
            | None => len
            end in
  if (to <=? from)%Z then EmptyString
  else substring (Z.to_nat from) (Z.to_nat (to - from)) s.

Definition truncatePublicKey (pkStr : string) (startChars endChars : Z) : string :=
  if (Z.of_nat (String.length pkStr) <=? startChars + endChars)%Z then pkStr
  else (slice pkStr 0 (Some startChars) ++ "..."
        ++ slice pkStr (- endChars) None)%string.

(** [baseUrl] of the two explorer helpers, for [config.network]. *)
Definition explorerBaseUrl (network : string) : string :=
  if String.eqb network "mainnet-beta"
  then "https://explorer.solana.com"%string
  else ("https://explorer.solana.com?cluster=" ++ network)%string.

Definition getExplorerUrl (network signature : string) : string :=
  (explorerBaseUrl network ++ "/tx/" ++ signature)%string.

Definition getAddressExplorerUrl (network addressStr : string) : string :=
  (explorerBaseUrl network ++ "/address/" ++ addressStr)%string.

End Display.

(** ** config: required environment variables *)

Module Config.

(** [!process.env[variable]]: unset or empty. *)
Definition unset (processEnv : string -> option string) (variable : string) : bool :=
  match processEnv variable with
  | None => true
  | Some value => String.eqb value ""
  end.

Definition validateEnvironmentVariables (processEnv : string -> option string)
    (variables : list string) : outcome unit :=
  let missing := filter (unset processEnv) variables in
  if (0 <? List.length missing)%nat
  then Thrown (Text ("Missing required environment variables: "
                     ++ String.concat ", " missing)%string)
  else Returned tt.

End Config.

(** ** services/notification: what goes into an embed *)

Definition Rgtb (x y : R) : bool := if Rgt_dec x y then true else false.

Module NotificationService.

Record EmbedField : Type := mkField { name : string; value : string; inline : bool }.

(** [s.substring(0, n)] for a non-negative [n]. *)
Definition firstChars (n : nat) (s : string) : string := substring 0 n s.

(** The [fields] of [sendErrorNotification]; a missing or empty stack is
    left out. *)
Definition errorFields (errorMessage : string) (errorStack : option string)
  : list EmbedField :=
  let fields := [mkField "Error Message" (firstChars 1024 errorMessage) false] in
  match errorStack with
  | Some stack =>
      if String.eqb stack "" then fields
      else fields ++ [mkField "Stack Trace" (firstChars 1024 stack) false]
  | None => fields
  end.

(** The test [sendPriceUpdateNotification] makes, twice, to call the price
    outside the managed range. *)
Definition priceOutside (current lowerBound upperBound : R) : bool :=
  Rltb current lowerBound || Rgtb current upperBound.

End NotificationService.

(** ** More on the closing pass *)

(** Positions reported as withdrawn, in order. *)
Definition withdrawals (events : list Event) : list string :=
  flat_map (fun ev => match ev with
                      | EvNotify (PositionWithdrawn id) => [id]
                      | _ => []
                      end) events.

(** * Properties *)

(** ** Comparisons *)

Lemma Rltb_true (x y : R) : Rltb x y = true <-> x < y.
Proof. unfold Rltb; destruct (Rlt_dec x y); split; intros; try easy; lra. Qed.

Lemma Rltb_false (x y : R) : Rltb x y = false <-> y <= x.
Proof. unfold Rltb; destruct (Rlt_dec x y); split; intros; try easy; lra. Qed.

Lemma Rleb_true (x y : R) : Rleb x y = true <-> x <= y.
Proof. unfold Rleb; destruct (Rle_dec x y); split; intros; try easy; lra. Qed.

Lemma Rleb_false (x y : R) : Rleb x y = false <-> y < x.
Proof. unfold Rleb; destruct (Rle_dec x y); split; intros; try easy; lra. Qed.

Lemma Rgeb_true (x y : R) : Rgeb x y = true <-> y <= x.
Proof. unfold Rgeb; destruct (Rge_dec x y); split; intros; try easy; lra. Qed.

Lemma Rgeb_false (x y : R) : Rgeb x y = false <-> x < y.
Proof. unfold Rgeb; destruct (Rge_dec x y); split; intros; try easy; lra. Qed.

(** Decide every comparison of the goal from the linear facts at hand. *)
Ltac cmp_true b :=
  let H := fresh "Hc" in
  assert (H : b = true) by
    (first [apply Rltb_true | apply Rleb_true | apply Rgeb_true]; lra);
  rewrite H; clear H; cbn [solAmount usdcAmount].

Ltac cmp_false b :=
  let H := fresh "Hc" in
  assert (H : b = false) by
    (first [apply Rltb_false | apply Rleb_false | apply Rgeb_false]; lra);
  rewrite H; clear H; cbn [solAmount usdcAmount].

Ltac decide_cmp :=
  repeat match goal with
         | |- context [Rltb ?x ?y] => first [cmp_true (Rltb x y) | cmp_false (Rltb x y)]
         | |- context [Rleb ?x ?y] => first [cmp_true (Rleb x y) | cmp_false (Rleb x y)]
         | |- context [Rgeb ?x ?y] => first [cmp_true (Rgeb x y) | cmp_false (Rgeb x y)]
         end.

(** Split on every comparison of the goal, keeping the order fact. *)
Ltac split_cmp :=
  repeat match goal with
         | |- context [Rltb ?x ?y] =>
             let H := fresh "Hlt" in
             destruct (Rltb x y) eqn:H;
             [apply Rltb_true in H | apply Rltb_false in H]
         | |- context [Rleb ?x ?y] =>
             let H := fresh "Hle" in
             destruct (Rleb x y) eqn:H;
             [apply Rleb_true in H | apply Rleb_false in H]
         | |- context [Rgeb ?x ?y] =>
             let H := fresh "Hge" in
             destruct (Rgeb x y) eqn:H;
             [apply Rgeb_true in H | apply Rgeb_false in H]
         end.

(** ** Square roots of the sample prices *)

Lemma sqrt_of_square (x y : R) : 0 <= y -> x = y * y -> sqrt x = y.
Proof. intros Hy ->. apply sqrt_square, Hy. Qed.

Ltac eval_sqrt :=
  repeat match goal with
         | |- context [sqrt 1] => rewrite sqrt_1
         | |- context [sqrt 4] => rewrite (sqrt_of_square 4 2) by lra
         | |- context [sqrt 25] => rewrite (sqrt_of_square 25 5) by lra
         | |- context [sqrt 81] => rewrite (sqrt_of_square 81 9) by lra
         | |- context [sqrt 100] => rewrite (sqrt_of_square 100 10) by lra
         | |- context [sqrt 121] => rewrite (sqrt_of_square 121 11) by lra
         end.

Ltac unfold_alloc :=
  unfold Helpers.calculateOptimalAmounts, Helpers.applyMinimumThresholds,
    Helpers.splitByPosition, RaydiumService.splitByWeight, referenceAmounts,
    referenceWeight, valueAt, dustFree,
    CONSTANTS.POSITION.MIN_SOL_AMOUNT, CONSTANTS.POSITION.MIN_USDC_AMOUNT;
  cbn [solAmount usdcAmount].

(** ** The weighted split *)

(** [getOptimalAmounts] computes the reference split, branch for branch. *)
Lemma splitByWeight_reference (lowerPrice upperPrice currentPrice totalValue : R) :
  RaydiumService.splitByWeight currentPrice lowerPrice upperPrice totalValue
  = referenceAmounts lowerPrice upperPrice currentPrice totalValue.
Proof. reflexivity. Qed.

(** Inside the range the helper weighs the legs the other way round:
    its [positionInRange] is [1 - weight]. *)
Lemma splitByPosition_inside (lowerPrice upperPrice currentPrice totalValue : R) :
  lowerPrice < currentPrice < upperPrice ->
  sqrt lowerPrice < sqrt upperPrice ->
  let weight := referenceWeight lowerPrice upperPrice currentPrice in
  Helpers.splitByPosition lowerPrice upperPrice currentPrice totalValue
  = mkAmounts ((totalValue / currentPrice) * weight) (totalValue * (1 - weight)).
Proof.
  intros [Hl Hu] Hs weight. subst weight. unfold_alloc.
  decide_cmp. f_equal; f_equal; field; lra.
Qed.

(** Both splits spend exactly the total, whatever the weight. *)
Lemma mixed_value (currentPrice totalValue weight : R) :
  currentPrice <> 0 ->
  totalValue / currentPrice * (1 - weight) * currentPrice + totalValue * weight
  = totalValue.
Proof. intros Hc. field. exact Hc. Qed.

Lemma splitByWeight_value (lowerPrice upperPrice currentPrice totalValue : R) :
  currentPrice <> 0 ->
  valueAt currentPrice
    (RaydiumService.splitByWeight currentPrice lowerPrice upperPrice totalValue)
  = totalValue.
Proof.
  intros Hc. unfold_alloc.
  split_cmp; cbn [solAmount usdcAmount];
    first [apply mixed_value; exact Hc | field; exact Hc].
Qed.

Lemma splitByPosition_value (lowerPrice upperPrice currentPrice totalValue : R) :
  currentPrice <> 0 ->
  valueAt currentPrice
    (Helpers.splitByPosition lowerPrice upperPrice currentPrice totalValue)
  = totalValue.
Proof.
  intros Hc. unfold_alloc.
  split_cmp; cbn [solAmount usdcAmount];
    first [apply mixed_value; exact Hc | field; exact Hc].
Qed.

Lemma applyMinimumThresholds_value (currentPrice totalValue : R) (a : Amounts) :
  currentPrice <> 0 ->
  valueAt currentPrice a = totalValue ->
  valueAt currentPrice (Helpers.applyMinimumThresholds currentPrice totalValue a)
  = totalValue.
Proof.
  intros Hc Ha. unfold_alloc.
  destruct (Rltb (solAmount a) (1 / 100)); cbn [solAmount usdcAmount];
    split_cmp; cbn [solAmount usdcAmount]; try (field; exact Hc); exact Ha.
Qed.

(** C9: for every input with [0 < lowerPrice < upperPrice], a positive current
    price and a non-negative total, the allocation conserves value exactly:
    [baseAmount * currentPrice + quoteAmount = totalValue], for the split of
    [getOptimalAmounts], for the split of [calculateOptimalAmounts] and for
    the latter after its minimum thresholds. *)
Theorem C9_value_conserved (lowerPrice upperPrice currentPrice totalValue : R) :
  0 < lowerPrice < upperPrice -> 0 < currentPrice -> 0 <= totalValue ->
  valueAt currentPrice
    (RaydiumService.splitByWeight currentPrice lowerPrice upperPrice totalValue)
  = totalValue
  /\ valueAt currentPrice
       (Helpers.splitByPosition lowerPrice upperPrice currentPrice totalValue)
     = totalValue
  /\ valueAt currentPrice
       (Helpers.calculateOptimalAmounts lowerPrice upperPrice currentPrice totalValue)
     = totalValue.
Proof.
  intros _ Hc _.
  assert (Hne : currentPrice <> 0) by lra.
  repeat split.
  - apply splitByWeight_value, Hne.
  - apply splitByPosition_value, Hne.
  - unfold Helpers.calculateOptimalAmounts.
    apply applyMinimumThresholds_value; [exact Hne|].
    apply splitByPosition_value, Hne.
Qed.

Lemma C9_value_conserved_witness :
  valueAt 100 (RaydiumService.splitByWeight 100 81 121 1000) = 1000
  /\ valueAt 100 (Helpers.splitByPosition 81 121 100 1000) = 1000
  /\ valueAt 100 (Helpers.calculateOptimalAmounts 81 121 100 1000) = 1000.
Proof. apply (C9_value_conserved 81 121 100 1000); lra. Defined.

(** C3: at [lowerPrice = 1], [upperPrice = 25], [currentPrice = 4],
    [totalValue = 1000] the reference split is 62.5 base and 750 quote
    ([weight = 3/4]); [getOptimalAmounts] returns it, while
    [calculateOptimalAmounts] returns 187.5 base and 250 quote, before and
    after its thresholds. *)
Theorem C3_helper_split_swapped :
  referenceAmounts 1 25 4 1000 = mkAmounts (125 / 2) 750
  /\ RaydiumService.splitByWeight 4 1 25 1000 = mkAmounts (125 / 2) 750
  /\ Helpers.splitByPosition 1 25 4 1000 = mkAmounts (375 / 2) 250
  /\ Helpers.calculateOptimalAmounts 1 25 4 1000 = mkAmounts (375 / 2) 250
  /\ Helpers.splitByPosition 1 25 4 1000 <> referenceAmounts 1 25 4 1000.
Proof.
  assert (Href : referenceAmounts 1 25 4 1000 = mkAmounts (125 / 2) 750).
  { unfold_alloc. decide_cmp. eval_sqrt. f_equal; field. }
  assert (Hpos : Helpers.splitByPosition 1 25 4 1000 = mkAmounts (375 / 2) 250).
  { unfold_alloc. decide_cmp. eval_sqrt. f_equal; field. }
  repeat split.
  - exact Href.
  - rewrite splitByWeight_reference. exact Href.
  - exact Hpos.
  - unfold Helpers.calculateOptimalAmounts. rewrite Hpos.
    unfold_alloc. decide_cmp. reflexivity.
  - rewrite Href, Hpos. intros H. injection H as H1 H2. lra.
Qed.

(** ** Minimum thresholds *)

(** The helper never hands out more base than the whole value buys. *)
Lemma splitByPosition_sol_le (lowerPrice upperPrice currentPrice totalValue : R) :
  0 < currentPrice -> 0 <= totalValue ->
  solAmount (Helpers.splitByPosition lowerPrice upperPrice currentPrice totalValue)
  <= totalValue / currentPrice.
Proof.
  intros Hc Ht.
  assert (Hx : 0 <= totalValue / currentPrice).
  { apply Rmult_le_pos; [exact Ht|]. left. apply Rinv_0_lt_compat, Hc. }
  unfold_alloc. split_cmp; cbn [solAmount usdcAmount]; try lra.
  assert (Hlo : sqrt lowerPrice <= sqrt currentPrice)
    by (apply sqrt_le_1_alt; lra).
  assert (Hhi : sqrt currentPrice < sqrt upperPrice)
    by (apply sqrt_lt_1_alt; lra).
  set (p := (sqrt currentPrice - sqrt lowerPrice) / (sqrt upperPrice - sqrt lowerPrice)).
  assert (Hp : 0 <= p).
  { apply Rmult_le_pos; [lra|]. left. apply Rinv_0_lt_compat. lra. }
  nra.
Qed.

Lemma applyMinimumThresholds_steps (currentPrice totalValue : R) (a : Amounts) :
  let r := Helpers.applyMinimumThresholds currentPrice totalValue a in
  (solAmount a < CONSTANTS.POSITION.MIN_SOL_AMOUNT ->
   CONSTANTS.POSITION.MIN_USDC_AMOUNT <= totalValue ->
   r = mkAmounts 0 totalValue)
  /\ (solAmount a < CONSTANTS.POSITION.MIN_SOL_AMOUNT ->
      totalValue < CONSTANTS.POSITION.MIN_USDC_AMOUNT ->
      r = mkAmounts (totalValue / currentPrice) 0)
  /\ (CONSTANTS.POSITION.MIN_SOL_AMOUNT <= solAmount a ->
      usdcAmount a < CONSTANTS.POSITION.MIN_USDC_AMOUNT ->
      r = mkAmounts (totalValue / currentPrice) 0)
  /\ (CONSTANTS.POSITION.MIN_SOL_AMOUNT <= solAmount a ->
      CONSTANTS.POSITION.MIN_USDC_AMOUNT <= usdcAmount a ->
      r = a).
Proof.
  unfold_alloc. repeat split; intros; decide_cmp; reflexivity.
Qed.

Lemma applyMinimumThresholds_quote (currentPrice totalValue : R) (a : Amounts) :
  let r := Helpers.applyMinimumThresholds currentPrice totalValue a in
  usdcAmount r = 0 \/ CONSTANTS.POSITION.MIN_USDC_AMOUNT <= usdcAmount r.
Proof.
  unfold_alloc.
  destruct (Rltb (solAmount a) (1 / 100)); cbn [solAmount usdcAmount];
    split_cmp; cbn [solAmount usdcAmount]; auto.
Qed.

Lemma applyMinimumThresholds_dustFree (currentPrice totalValue : R) (a : Amounts) :
  solAmount a <= totalValue / currentPrice ->
  CONSTANTS.POSITION.MIN_USDC_AMOUNT <= totalValue
  \/ CONSTANTS.POSITION.MIN_SOL_AMOUNT <= totalValue / currentPrice ->
  dustFree (Helpers.applyMinimumThresholds currentPrice totalValue a).
Proof.
  unfold_alloc. intros Ha Hbig.
  destruct (Rltb (solAmount a) (1 / 100)) eqn:Hs;
    [apply Rltb_true in Hs | apply Rltb_false in Hs];
    cbn [solAmount usdcAmount];
    split_cmp; cbn [solAmount usdcAmount]; split; lra.
Qed.

(** C1 (as amended): only [calculateOptimalAmounts] has a dust step;
    [getOptimalAmounts] returns the reference split as it is.  In
    [calculateOptimalAmounts], for a positive price and a non-negative total:
    a split whose base amount is below [MIN_SOL_AMOUNT] becomes base 0 and
    quote [totalValue] when the total reaches [MIN_USDC_AMOUNT]; a split that
    keeps its base amount and whose quote amount is below [MIN_USDC_AMOUNT]
    becomes quote 0 and base [totalValue / currentPrice]; a split with both
    legs at their minimum is returned unchanged; the returned quote leg is
    never a non-zero amount below [MIN_USDC_AMOUNT]; and when the total
    reaches [MIN_USDC_AMOUNT], or buys at least [MIN_SOL_AMOUNT], no returned
    leg is a non-zero amount below its minimum. *)
Theorem C1_thresholds (lowerPrice upperPrice currentPrice totalValue : R) :
  0 < currentPrice -> 0 <= totalValue ->
  let a := Helpers.splitByPosition lowerPrice upperPrice currentPrice totalValue in
  let r := Helpers.calculateOptimalAmounts lowerPrice upperPrice currentPrice totalValue in
  RaydiumService.splitByWeight currentPrice lowerPrice upperPrice totalValue
  = referenceAmounts lowerPrice upperPrice currentPrice totalValue
  /\ (solAmount a < CONSTANTS.POSITION.MIN_SOL_AMOUNT ->
      CONSTANTS.POSITION.MIN_USDC_AMOUNT <= totalValue ->
      r = mkAmounts 0 totalValue)
  /\ (CONSTANTS.POSITION.MIN_SOL_AMOUNT <= solAmount a ->
      usdcAmount a < CONSTANTS.POSITION.MIN_USDC_AMOUNT ->
      r = mkAmounts (totalValue / currentPrice) 0)
  /\ (CONSTANTS.POSITION.MIN_SOL_AMOUNT <= solAmount a ->
      CONSTANTS.POSITION.MIN_USDC_AMOUNT <= usdcAmount a ->
      r = a)
  /\ (usdcAmount r = 0 \/ CONSTANTS.POSITION.MIN_USDC_AMOUNT <= usdcAmount r)
  /\ (CONSTANTS.POSITION.MIN_USDC_AMOUNT <= totalValue
      \/ CONSTANTS.POSITION.MIN_SOL_AMOUNT <= totalValue / currentPrice ->
      dustFree r).
Proof.
  intros Hc Ht a r. subst a r. unfold Helpers.calculateOptimalAmounts.
  pose proof (applyMinimumThresholds_steps currentPrice totalValue
                (Helpers.splitByPosition lowerPrice upperPrice currentPrice totalValue))
    as (H1 & _ & H3 & H4).
  split; [reflexivity|].
  split; [exact H1|]. split; [exact H3|]. split; [exact H4|].
  split; [apply applyMinimumThresholds_quote|].
  intros Hbig. apply applyMinimumThresholds_dustFree; [|exact Hbig].
  apply splitByPosition_sol_le; assumption.
Qed.

Lemma C1_thresholds_witness :
  Helpers.calculateOptimalAmounts 81 121 100 1000 = mkAmounts 5 500
  /\ dustFree (Helpers.calculateOptimalAmounts 81 121 100 1000).
Proof.
  assert (Ha : Helpers.splitByPosition 81 121 100 1000 = mkAmounts 5 500).
  { unfold_alloc. decide_cmp. eval_sqrt. f_equal; field. }
  destruct (C1_thresholds 81 121 100 1000) as (_ & _ & _ & Hkeep & _ & Hfree);
    [lra | lra |].
  split.
  - rewrite Hkeep; rewrite Ha; cbn [solAmount usdcAmount];
      unfold CONSTANTS.POSITION.MIN_SOL_AMOUNT, CONSTANTS.POSITION.MIN_USDC_AMOUNT;
      try reflexivity; lra.
  - apply Hfree. left. unfold CONSTANTS.POSITION.MIN_USDC_AMOUNT. lra.
Defined.

(** C1 fails as stated: with total value 1 in the range 81..121 at price 100,
    [getOptimalAmounts] returns 0.005 base and 0.5 quote, both non-zero and
    below their minimums; with total value 0.5, [calculateOptimalAmounts]
    returns 0.005 base, non-zero and below [MIN_SOL_AMOUNT]. *)
Lemma C1_dust_leg_returned :
  RaydiumService.splitByWeight 100 81 121 1 = mkAmounts (1 / 200) (1 / 2)
  /\ ~ dustFree (RaydiumService.splitByWeight 100 81 121 1)
  /\ Helpers.calculateOptimalAmounts 81 121 100 (1 / 2) = mkAmounts (1 / 200) 0
  /\ ~ dustFree (Helpers.calculateOptimalAmounts 81 121 100 (1 / 2)).
Proof.
  assert (Hw : RaydiumService.splitByWeight 100 81 121 1 = mkAmounts (1 / 200) (1 / 2)).
  { unfold_alloc. decide_cmp. eval_sqrt. f_equal; field. }
  assert (Hp : Helpers.splitByPosition 81 121 100 (1 / 2) = mkAmounts (1 / 400) (1 / 4)).
  { unfold_alloc. decide_cmp. eval_sqrt. f_equal; field. }
  assert (Hc : Helpers.calculateOptimalAmounts 81 121 100 (1 / 2) = mkAmounts (1 / 200) 0).
  { unfold Helpers.calculateOptimalAmounts. rewrite Hp.
    unfold_alloc. decide_cmp. f_equal; field. }
  repeat split; try assumption.
  - rewrite Hw. unfold_alloc. intros [[H | H] _]; lra.
  - rewrite Hc. unfold_alloc. intros [[H | H] _]; lra.
Qed.

(** ** Range edges *)

(** C4 (as amended): for a valid range, [getOptimalAmounts] and the split of
    [calculateOptimalAmounts] before its thresholds give base 0 at or below
    the lower bound and quote 0 at or above the upper bound.  After the
    thresholds of [calculateOptimalAmounts] the base amount is 0 at or below
    the lower bound when the total reaches [MIN_USDC_AMOUNT], and the quote
    amount is 0 at or above the upper bound when the total buys at least
    [MIN_SOL_AMOUNT] or is below [MIN_USDC_AMOUNT]. *)
Theorem C4_edges (lowerBound upperBound currentPrice totalValue : R) :
  lowerBound < upperBound ->
  (currentPrice <= lowerBound ->
     solAmount (RaydiumService.splitByWeight currentPrice lowerBound upperBound totalValue) = 0
     /\ solAmount (Helpers.splitByPosition lowerBound upperBound currentPrice totalValue) = 0
     /\ (CONSTANTS.POSITION.MIN_USDC_AMOUNT <= totalValue ->
         solAmount (Helpers.calculateOptimalAmounts
                      lowerBound upperBound currentPrice totalValue) = 0))
  /\ (upperBound <= currentPrice ->
     usdcAmount (RaydiumService.splitByWeight currentPrice lowerBound upperBound totalValue) = 0
     /\ usdcAmount (Helpers.splitByPosition lowerBound upperBound currentPrice totalValue) = 0
     /\ (CONSTANTS.POSITION.MIN_SOL_AMOUNT <= totalValue / currentPrice
         \/ totalValue < CONSTANTS.POSITION.MIN_USDC_AMOUNT ->
         usdcAmount (Helpers.calculateOptimalAmounts
                       lowerBound upperBound currentPrice totalValue) = 0)).
Proof.
  unfold_alloc. intros Hrange. split; intros Hedge.
  - repeat split; try intros Hbig; decide_cmp; reflexivity.
  - repeat split; try intros Hbig; decide_cmp; try reflexivity.
    destruct Hbig as [Hbig | Hsmall].
    + decide_cmp. reflexivity.
    + split_cmp; cbn [solAmount usdcAmount] in *; first [reflexivity | lra].
Qed.

Lemma C4_edges_witness :
  solAmount (Helpers.calculateOptimalAmounts 100 110 100 1000) = 0
  /\ usdcAmount (Helpers.calculateOptimalAmounts 80 90 100 1000) = 0.
Proof.
  split.
  - destruct (C4_edges 100 110 100 1000) as [[_ [_ H]] _]; [lra | lra |].
    apply H. unfold CONSTANTS.POSITION.MIN_USDC_AMOUNT. lra.
  - destruct (C4_edges 80 90 100 1000) as [_ H]; [lra |].
    destruct H as [_ [_ H]]; [lra |].
    apply H. left. unfold CONSTANTS.POSITION.MIN_SOL_AMOUNT. lra.
Defined.

(** C4 fails as stated: at the lower bound (price 100, range 100..110) a
    total of 1 comes back from [calculateOptimalAmounts] as 0.01 base; above
    the upper bound (price 1000, range 800..900) a total of 5 comes back as
    5 quote. *)
Lemma C4_thresholds_override_edges :
  100 < 110 /\ 100 <= 100
  /\ Helpers.calculateOptimalAmounts 100 110 100 1 = mkAmounts (1 / 100) 0
  /\ solAmount (Helpers.calculateOptimalAmounts 100 110 100 1) <> 0
  /\ 800 < 900 /\ 1000 >= 900
  /\ Helpers.calculateOptimalAmounts 800 900 1000 5 = mkAmounts 0 5
  /\ usdcAmount (Helpers.calculateOptimalAmounts 800 900 1000 5) <> 0.
Proof.
  assert (H1 : Helpers.calculateOptimalAmounts 100 110 100 1 = mkAmounts (1 / 100) 0).
  { unfold_alloc. decide_cmp. reflexivity. }
  assert (H2 : Helpers.calculateOptimalAmounts 800 900 1000 5 = mkAmounts 0 5).
  { unfold_alloc. decide_cmp. reflexivity. }
  rewrite H1, H2. cbn [solAmount usdcAmount].
  repeat split; lra.
Qed.

(** ** Reading the price *)

Lemma getCurrentPrice_loaded (env : Env) (w : World) (info : PoolInfo) :
  poolInfo w = Some info ->
  RaydiumService.getCurrentPrice env w
  = (Returned (getCurrencyAmount env (sqrtPriceX64 info)), w).
Proof.
  intros H. unfold RaydiumService.getCurrentPrice, bind, get, ret.
  rewrite H. cbn. rewrite H. reflexivity.
Qed.

Lemma getOptimalAmounts_loaded (env : Env) (w : World) (info : PoolInfo)
    (lowerPrice upperPrice totalValue : R) :
  poolInfo w = Some info ->
  RaydiumService.getOptimalAmounts env lowerPrice upperPrice totalValue w
  = (Returned (RaydiumService.splitByWeight
                 (getCurrencyAmount env (sqrtPriceX64 info))
                 lowerPrice upperPrice totalValue), w).
Proof.
  intros H. unfold RaydiumService.getOptimalAmounts, bind.
  rewrite (getCurrentPrice_loaded env w info H). reflexivity.
Qed.

(** ** Inverted ranges *)

(** C5 (as amended): no range check exists.  With pool information loaded,
    [getOptimalAmounts] returns an allocation for every range, inverted or
    not, and leaves the state alone; when [upperPrice <= lowerPrice] the
    result is all quote if the price is at or below [lowerPrice] and all base
    otherwise, and [calculateOptimalAmounts] applies its thresholds to that
    same split. *)
Theorem C5_no_range_check (env : Env) (w : World) (info : PoolInfo)
    (lowerPrice upperPrice totalValue : R) :
  poolInfo w = Some info ->
  let currentPrice := getCurrencyAmount env (sqrtPriceX64 info) in
  let edgeSplit :=
    if Rleb currentPrice lowerPrice then mkAmounts 0 totalValue
    else mkAmounts (totalValue / currentPrice) 0 in
  RaydiumService.getOptimalAmounts env lowerPrice upperPrice totalValue w
  = (Returned (RaydiumService.splitByWeight
                 currentPrice lowerPrice upperPrice totalValue), w)
  /\ (upperPrice <= lowerPrice ->
      RaydiumService.splitByWeight currentPrice lowerPrice upperPrice totalValue
      = edgeSplit
      /\ Helpers.calculateOptimalAmounts lowerPrice upperPrice currentPrice totalValue
         = Helpers.applyMinimumThresholds currentPrice totalValue edgeSplit).
Proof.
  intros H currentPrice edgeSplit. split.
  - apply getOptimalAmounts_loaded, H.
  - intros Hinv. subst edgeSplit.
    unfold Helpers.calculateOptimalAmounts, Helpers.splitByPosition,
      RaydiumService.splitByWeight.
    destruct (Rleb currentPrice lowerPrice) eqn:Hle.
    + split; reflexivity.
    + apply Rleb_false in Hle.
      assert (Hge : Rgeb currentPrice upperPrice = true)
        by (apply Rgeb_true; lra).
      rewrite Hge. split; reflexivity.
Qed.

Lemma C5_no_range_check_witness :
  RaydiumService.getOptimalAmounts sampleEnv 110 90 1000 warmWorld
  = (Returned (RaydiumService.splitByWeight 100 110 90 1000), warmWorld).
Proof.
  apply (C5_no_range_check sampleEnv warmWorld samplePool 110 90 1000).
  reflexivity.
Defined.

(** C5 fails as stated: called with the inverted range 110..90 at price 100,
    [getOptimalAmounts] returns 1000 quote and [calculateOptimalAmounts]
    returns the same; neither raises anything. *)
Lemma C5_inverted_range_returns :
  90 <= 110
  /\ RaydiumService.getOptimalAmounts sampleEnv 110 90 1000 warmWorld
     = (Returned (mkAmounts 0 1000), warmWorld)
  /\ (forall e, fst (RaydiumService.getOptimalAmounts sampleEnv 110 90 1000 warmWorld)
                <> Thrown e)
  /\ Helpers.calculateOptimalAmounts 110 90 100 1000 = mkAmounts 0 1000.
Proof.
  assert (H : RaydiumService.getOptimalAmounts sampleEnv 110 90 1000 warmWorld
              = (Returned (mkAmounts 0 1000), warmWorld)).
  { rewrite (getOptimalAmounts_loaded sampleEnv warmWorld samplePool) by reflexivity.
    cbn [sampleEnv getCurrencyAmount]. do 2 f_equal.
    unfold_alloc. decide_cmp. reflexivity. }
  repeat split.
  - lra.
  - exact H.
  - intros e. rewrite H. cbn. discriminate.
  - unfold_alloc. decide_cmp. reflexivity.
Qed.

(** ** Tick alignment *)

Section TickAlignment.
Local Open Scope Z_scope.
Variables (tick spacing : Z).
Hypothesis spacing_pos : 0 < spacing.

(** Rounding down lands on the greatest multiple not above the tick. *)
Lemma floorDiv_below :
  floorDiv tick spacing * spacing <= tick < floorDiv tick spacing * spacing + spacing.
Proof. unfold floorDiv. Z.div_mod_to_equations. nia. Qed.

(** Rounding up lands on the least multiple not below the tick. *)
Lemma ceilDiv_above :
  ceilDiv tick spacing * spacing - spacing < tick <= ceilDiv tick spacing * spacing.
Proof. unfold ceilDiv. Z.div_mod_to_equations. nia. Qed.

Lemma floorDiv_aligned : (spacing | tick) -> floorDiv tick spacing * spacing = tick.
Proof.
  intros [k ->]. unfold floorDiv. rewrite Z.div_mul by lia. reflexivity.
Qed.

Lemma ceilDiv_aligned : (spacing | tick) -> ceilDiv tick spacing * spacing = tick.
Proof.
  intros [k ->]. unfold ceilDiv.
  rewrite <- Z.mul_opp_l, Z.div_mul by lia. lia.
Qed.
End TickAlignment.

(** C6: for every pair of prices and a positive tick spacing,
    [calculateTickIndexes] returns as lower index the greatest multiple of
    the spacing at or below the lower price's tick and as upper index the
    least multiple at or above the upper price's tick (so the range is only
    widened), and a tick that is already a multiple of the spacing is
    returned unchanged in both directions. *)
Theorem C6_tick_alignment (env : Env) (w : World) (info : PoolInfo)
    (lowerPrice upperPrice : R) :
  poolInfo w = Some info ->
  (0 < tickSpacing info)%Z ->
  let spacing := tickSpacing info in
  let rawLower := priceToTickIndex env lowerPrice spacing in
  let rawUpper := priceToTickIndex env upperPrice spacing in
  exists ticks,
    RaydiumService.calculateTickIndexes env lowerPrice upperPrice w
    = (Returned ticks, w)
    /\ (spacing | lowerTickIndex ticks)%Z
    /\ (lowerTickIndex ticks <= rawLower < lowerTickIndex ticks + spacing)%Z
    /\ (spacing | upperTickIndex ticks)%Z
    /\ (upperTickIndex ticks - spacing < rawUpper <= upperTickIndex ticks)%Z
    /\ ((spacing | rawLower)%Z -> lowerTickIndex ticks = rawLower)
    /\ ((spacing | rawUpper)%Z -> upperTickIndex ticks = rawUpper).
Proof.
  intros Hinfo Hpos spacing rawLower rawUpper.
  exists (mkTickIndexes (floorDiv rawLower spacing * spacing)
                        (ceilDiv rawUpper spacing * spacing)).
  cbn [lowerTickIndex upperTickIndex].
  split.
  { unfold RaydiumService.calculateTickIndexes, bind, get, ret.
    rewrite Hinfo. reflexivity. }
  split; [apply Z.divide_factor_r|].
  split; [apply floorDiv_below, Hpos|].
  split; [apply Z.divide_factor_r|].
  split; [apply ceilDiv_above, Hpos|].
  split; [apply floorDiv_aligned, Hpos | apply ceilDiv_aligned, Hpos].
Qed.

Lemma C6_tick_alignment_witness :
  exists ticks,
    RaydiumService.calculateTickIndexes sampleEnv 95 105 warmWorld
    = (Returned ticks, warmWorld)
    /\ (lowerTickIndex ticks <= -23 < lowerTickIndex ticks + 10)%Z
    /\ (upperTickIndex ticks - 10 < 17 <= upperTickIndex ticks)%Z.
Proof.
  destruct (C6_tick_alignment sampleEnv warmWorld samplePool 95 105)
    as (ticks & Hrun & _ & Hlo & _ & Hup & _); [reflexivity | reflexivity |].
  exists ticks. split; [exact Hrun|].
  cbn [sampleEnv priceToTickIndex samplePool tickSpacing] in Hlo, Hup.
  assert (H95 : Rltb 95 100 = true) by (apply Rltb_true; lra).
  assert (H105 : Rltb 105 100 = false) by (apply Rltb_false; lra).
  rewrite H95 in Hlo. rewrite H105 in Hup.
  split; assumption.
Defined.

(** ** Worlds and traces *)

Lemma record_nil (w : World) : record [] w = w.
Proof. destruct w. unfold record. cbn. rewrite app_nil_r. reflexivity. Qed.

Lemma record_app (a b : list Event) (w : World) :
  record b (record a w) = record (a ++ b) w.
Proof. unfold record. cbn. rewrite app_assoc. reflexivity. Qed.

Lemma emit_record (ev : Event) (w : World) : emit ev w = (Returned tt, record [ev] w).
Proof. reflexivity. Qed.

Lemma attemptsOf_app (a b : list Event) :
  attemptsOf (a ++ b) = attemptsOf a ++ attemptsOf b.
Proof. apply flat_map_app. Qed.

Lemma sleepsOf_app (a b : list Event) : sleepsOf (a ++ b) = sleepsOf a ++ sleepsOf b.
Proof. apply flat_map_app. Qed.

Lemma closeCalls_app (a b : list Event) :
  closeCalls (a ++ b) = closeCalls a ++ closeCalls b.
Proof. apply flat_map_app. Qed.

Lemma createCalls_app (a b : list Event) :
  createCalls (a ++ b) = createCalls a ++ createCalls b.
Proof. apply flat_map_app. Qed.

Lemma closeReports_app (a b : list Event) :
  closeReports (a ++ b) = closeReports a ++ closeReports b.
Proof. apply flat_map_app. Qed.

(** ** Bounded retries *)

Lemma sendLoop_unfold (send : Z -> outcome string) (retries attempts : Z)
    (lastError : option Message) :
  Blockchain.sendLoop send retries attempts lastError
  = if (attempts <? retries)%Z then
      tryCatch
        (emit (EvSubmit (attempts + 1)) ;;;
         signature <- lift (send (attempts + 1)%Z) ;;
         ret signature)
        (fun error =>
           (if (attempts + 1 <? retries)%Z
            then emit (EvSleep (2 ^ (attempts + 1) * 1000))
            else ret tt) ;;;
           Blockchain.sendLoop send retries (attempts + 1) (Some error))
    else throw (TransactionFailedAfter retries (messageOf lastError)).
Proof.
  rewrite Blockchain.sendLoop_equation_1.
  unfold Blockchain.sendLoop_unfold_clause_1.
  destruct (attempts <? retries)%Z; reflexivity.
Qed.

Lemma retryLoop_unfold {T : Type} (fn : Z -> outcome T)
    (retries baseDelay attempts : Z) (lastError : option Message) :
  Helpers.retryLoop fn retries baseDelay attempts lastError
  = if (attempts <? retries)%Z then
      tryCatch
        (emit (EvCall (attempts + 1)) ;;;
         lift (fn (attempts + 1)%Z))
        (fun error =>
           if (attempts + 1 >=? retries)%Z
           then Helpers.throwLast (Some error)
           else
             emit (EvSleep (baseDelay * 2 ^ (attempts + 1))) ;;;
             Helpers.retryLoop fn retries baseDelay (attempts + 1) (Some error))
    else Helpers.throwLast lastError.
Proof.
  rewrite Helpers.retryLoop_equation_1.
  unfold Helpers.retryLoop_unfold_clause_1.
  destruct (attempts <? retries)%Z; reflexivity.
Qed.

Lemma exhaustedTrace_more (attemptEvent : Z -> Event) (delay : Z -> Z)
    (n : nat) (failed : Z) :
  exhaustedTrace attemptEvent delay (S (S n)) failed
  = attemptEvent (failed + 1)%Z :: EvSleep (delay (failed + 1)%Z)
      :: exhaustedTrace attemptEvent delay (S n) (failed + 1)%Z.
Proof. reflexivity. Qed.

(** The attempts of an exhausted run are numbered consecutively and each
    but the last is followed by its pause. *)
Lemma exhaustedTrace_attempts (attemptEvent : Z -> Event) (delay : Z -> Z)
    (remaining : nat) (failed : Z) :
  (forall k, attemptsOf [attemptEvent k] = [k]) ->
  attemptsOf (exhaustedTrace attemptEvent delay remaining failed)
  = map (fun i => (failed + Z.of_nat i)%Z) (seq 1 remaining).
Proof.
  intros Hev. revert failed.
  induction remaining as [|n IH]; intros failed; [reflexivity|].
  assert (Hhead : forall k rest,
             attemptsOf (attemptEvent k :: rest) = k :: attemptsOf rest).
  { intros k rest. change (attemptEvent k :: rest) with ([attemptEvent k] ++ rest).
    rewrite attemptsOf_app, Hev. reflexivity. }
  destruct n as [|n].
  - cbn [exhaustedTrace]. rewrite Hhead. reflexivity.
  - rewrite exhaustedTrace_more, Hhead.
    change (attemptsOf (EvSleep ?d :: ?l)) with (attemptsOf l).
    rewrite IH.
    change (seq 1 (S (S n))) with (1%nat :: seq 2 (S n)).
    rewrite <- (seq_shift (S n) 1). cbn [map]. rewrite map_map.
    f_equal. apply map_ext. intros i. lia.
Qed.

Lemma exhaustedTrace_sleeps (attemptEvent : Z -> Event) (delay : Z -> Z)
    (remaining : nat) (failed : Z) :
  (forall k, sleepsOf [attemptEvent k] = []) ->
  sleepsOf (exhaustedTrace attemptEvent delay remaining failed)
  = map (fun i => delay (failed + Z.of_nat i)%Z) (seq 1 (remaining - 1)).
Proof.
  intros Hev. revert failed.
  induction remaining as [|n IH]; intros failed; [reflexivity|].
  assert (Hhead : forall k rest,
             sleepsOf (attemptEvent k :: rest) = sleepsOf rest).
  { intros k rest. change (attemptEvent k :: rest) with ([attemptEvent k] ++ rest).
    rewrite sleepsOf_app, Hev. reflexivity. }
  destruct n as [|n].
  - cbn [exhaustedTrace]. rewrite Hhead. reflexivity.
  - rewrite exhaustedTrace_more, Hhead.
    change (sleepsOf (EvSleep ?d :: ?l)) with (d :: sleepsOf l).
    rewrite IH.
    replace (S (S n) - 1)%nat with (S n) by lia.
    replace (S n - 1)%nat with n by lia.
    change (seq 1 (S n)) with (1%nat :: seq 2 n).
    rewrite <- (seq_shift n 1). cbn [map]. rewrite map_map.
    f_equal. apply map_ext. intros i. f_equal. lia.
Qed.

Lemma exhaustedTrace_last (attemptEvent : Z -> Event) (delay : Z -> Z)
    (n : nat) (failed : Z) :
  exists front,
    exhaustedTrace attemptEvent delay (S n) failed
    = front ++ [attemptEvent (failed + Z.of_nat (S n))%Z].
Proof.
  revert failed. induction n as [|n IH]; intros failed.
  - exists []. reflexivity.
  - destruct (IH (failed + 1)%Z) as [front Hfront].
    exists (attemptEvent (failed + 1)%Z :: EvSleep (delay (failed + 1)%Z) :: front).
    rewrite exhaustedTrace_more, Hfront.
    replace (failed + Z.of_nat (S (S n)))%Z with (failed + 1 + Z.of_nat (S n))%Z
      by lia.
    reflexivity.
Qed.

(** When every remaining attempt fails, the submitter's loop makes them all,
    pausing between them, and throws with the last error. *)
Lemma sendLoop_exhausted (send : Z -> outcome string) (retries : Z)
    (err : Z -> Message) (n : nat) :
  forall (attempts : Z) (lastError : option Message) (w : World),
    n = Z.to_nat (retries - attempts) ->
    (forall k, (attempts < k <= retries)%Z -> send k = Thrown (err k)) ->
    Blockchain.sendLoop send retries attempts lastError w
    = (Thrown (TransactionFailedAfter retries
                 (match n with O => messageOf lastError | S _ => err retries end)),
       record (exhaustedTrace EvSubmit (fun k => 2 ^ k * 1000)%Z n attempts) w).
Proof.
  induction n as [|m IH]; intros attempts lastError w Hn Hfail;
    rewrite sendLoop_unfold.
  - assert (Hge : (attempts <? retries)%Z = false) by (apply Z.ltb_ge; lia).
    rewrite Hge. cbn [exhaustedTrace]. rewrite record_nil. reflexivity.
  - assert (Hlt : (attempts <? retries)%Z = true) by (apply Z.ltb_lt; lia).
    rewrite Hlt. unfold tryCatch, bind, lift.
    rewrite emit_record, (Hfail (attempts + 1)%Z) by lia.
    destruct m as [|m'].
    + assert (Hlast : (attempts + 1 <? retries)%Z = false) by (apply Z.ltb_ge; lia).
      rewrite Hlast. unfold ret at 1.
      rewrite (IH (attempts + 1)%Z (Some (err (attempts + 1)%Z))) by
        first [lia | intros; apply Hfail; lia].
      cbn [exhaustedTrace messageOf]. rewrite record_nil.
      replace (attempts + 1)%Z with retries by lia. reflexivity.
    + assert (Hmore : (attempts + 1 <? retries)%Z = true) by (apply Z.ltb_lt; lia).
      rewrite Hmore, emit_record.
      rewrite (IH (attempts + 1)%Z (Some (err (attempts + 1)%Z))) by
        first [lia | intros; apply Hfail; lia].
      rewrite exhaustedTrace_more, !record_app. reflexivity.
Qed.

(** The same for [retry], which rethrows the last error itself. *)
Lemma retryLoop_exhausted {T : Type} (fn : Z -> outcome T) (retries baseDelay : Z)
    (err : Z -> Message) (n : nat) :
  forall (attempts : Z) (lastError : option Message) (w : World),
    S n = Z.to_nat (retries - attempts) ->
    (forall k, (attempts < k <= retries)%Z -> fn k = Thrown (err k)) ->
    Helpers.retryLoop fn retries baseDelay attempts lastError w
    = (Thrown (err retries),
       record (exhaustedTrace EvCall (fun k => baseDelay * 2 ^ k)%Z (S n) attempts) w).
Proof.
  induction n as [|m IH]; intros attempts lastError w Hn Hfail;
    rewrite retryLoop_unfold.
  - assert (Hlt : (attempts <? retries)%Z = true) by (apply Z.ltb_lt; lia).
    rewrite Hlt. unfold tryCatch, bind, lift.
    rewrite emit_record, (Hfail (attempts + 1)%Z) by lia.
    assert (Hlast : (attempts + 1 >=? retries)%Z = true)
      by (rewrite Z.geb_leb; apply Z.leb_le; lia).
    rewrite Hlast. cbn [Helpers.throwLast exhaustedTrace]. unfold throw.
    replace (attempts + 1)%Z with retries by lia. reflexivity.
  - assert (Hlt : (attempts <? retries)%Z = true) by (apply Z.ltb_lt; lia).
    rewrite Hlt. unfold tryCatch, bind, lift.
    rewrite emit_record, (Hfail (attempts + 1)%Z) by lia.
    assert (Hmore : (attempts + 1 >=? retries)%Z = false)
      by (rewrite Z.geb_leb; apply Z.leb_gt; lia).
    rewrite Hmore, emit_record.
    rewrite (IH (attempts + 1)%Z (Some (err (attempts + 1)%Z))) by
      first [lia | intros; apply Hfail; lia].
    rewrite exhaustedTrace_more, !record_app. reflexivity.
Qed.

(** A submission that fails once and then confirms: one pause of
    [2^1 * 1000] ms, two attempts, the signature returned. *)
Example sendTransactionWithRetry_second_attempt :
  Blockchain.sendTransactionWithRetry
    (fun k => if (k =? 2)%Z then Returned "sig"%string else Thrown (Text "confirmation timeout"))
    3 warmWorld
  = (Returned "sig"%string, record [EvSubmit 1; EvSleep 2000; EvSubmit 2] warmWorld).
Proof.
  unfold Blockchain.sendTransactionWithRetry, bind, get.
  cbn [warmWorld connection negb].
  rewrite sendLoop_unfold. cbn [Z.ltb Z.compare Z.add Pos.compare Pos.compare_cont].
  unfold tryCatch, bind, lift. rewrite emit_record. cbn.
  rewrite sendLoop_unfold. cbn.
  reflexivity.
Qed.

(** C2: for every [maxAttempts >= 1], when all attempts fail the submitter
    makes exactly [maxAttempts] attempts, numbered from 1, pauses
    [baseDelay * 2^k] ms after the failed attempt [k] for every [k] below
    [maxAttempts] and not after the last, and then throws an error carrying
    the last attempt's error; [sendTransactionWithRetry] has
    [baseDelay = 1000], [retry] takes it as an argument. *)
Theorem C2_exhausted_after_maxAttempts {T : Type}
    (send : Z -> outcome string) (fn : Z -> outcome T)
    (maxAttempts baseDelay : Z) (err : Z -> Message) (w : World) :
  connection w = true ->
  (1 <= maxAttempts)%Z ->
  (forall k, (1 <= k <= maxAttempts)%Z -> send k = Thrown (err k)) ->
  (forall k, (1 <= k <= maxAttempts)%Z -> fn k = Thrown (err k)) ->
  let n := Z.to_nat maxAttempts in
  let submitted := exhaustedTrace EvSubmit (fun k => 2 ^ k * 1000)%Z n 0 in
  let called := exhaustedTrace EvCall (fun k => baseDelay * 2 ^ k)%Z n 0 in
  Blockchain.sendTransactionWithRetry send maxAttempts w
  = (Thrown (TransactionFailedAfter maxAttempts (err maxAttempts)), record submitted w)
  /\ attemptsOf submitted = map Z.of_nat (seq 1 n)
  /\ sleepsOf submitted = map (fun i => 2 ^ Z.of_nat i * 1000)%Z (seq 1 (n - 1))
  /\ (exists front, submitted = front ++ [EvSubmit maxAttempts])
  /\ Helpers.retry fn maxAttempts baseDelay w = (Thrown (err maxAttempts), record called w)
  /\ attemptsOf called = map Z.of_nat (seq 1 n)
  /\ sleepsOf called = map (fun i => baseDelay * 2 ^ Z.of_nat i)%Z (seq 1 (n - 1))
  /\ (exists front, called = front ++ [EvCall maxAttempts]).
Proof.
  intros Hconn Hmax Hsend Hfn n submitted called. subst submitted called.
  assert (Hn : n = Z.to_nat maxAttempts) by reflexivity. clearbody n.
  destruct n as [|m]; [lia|].
  assert (Hend : (0 + Z.of_nat (S m))%Z = maxAttempts) by lia.
  split.
  { unfold Blockchain.sendTransactionWithRetry, bind, get. rewrite Hconn.
    cbn [negb].
    apply (sendLoop_exhausted send maxAttempts err (S m) 0 None w);
      [rewrite Hn; f_equal; lia | intros; apply Hsend; lia]. }
  split.
  { rewrite exhaustedTrace_attempts by reflexivity.
    apply map_ext. intros i. lia. }
  split.
  { rewrite exhaustedTrace_sleeps by reflexivity. reflexivity. }
  split.
  { destruct (exhaustedTrace_last EvSubmit (fun k => 2 ^ k * 1000)%Z m 0)
      as [front Hfront].
    exists front. rewrite Hfront, Hend. reflexivity. }
  split.
  { unfold Helpers.retry.
    apply retryLoop_exhausted; [lia | intros; apply Hfn; lia]. }
  split.
  { rewrite exhaustedTrace_attempts by reflexivity.
    apply map_ext. intros i. lia. }
  split.
  { rewrite exhaustedTrace_sleeps by reflexivity. reflexivity. }
  destruct (exhaustedTrace_last EvCall (fun k => baseDelay * 2 ^ k)%Z m 0)
    as [front Hfront].
  exists front. rewrite Hfront, Hend. reflexivity.
Qed.

Lemma C2_exhausted_after_maxAttempts_witness :
  Blockchain.sendTransactionWithRetry
    (fun _ => Thrown (Text "confirmation timeout")) 3 warmWorld
  = (Thrown (TransactionFailedAfter 3 (Text "confirmation timeout")),
     record [EvSubmit 1; EvSleep 2000; EvSubmit 2; EvSleep 4000; EvSubmit 3] warmWorld)
  /\ Helpers.retry (T := string)
       (fun _ => Thrown (Text "confirmation timeout")) 3 500 warmWorld
     = (Thrown (Text "confirmation timeout"),
        record [EvCall 1; EvSleep 1000; EvCall 2; EvSleep 2000; EvCall 3] warmWorld).
Proof.
  destruct (C2_exhausted_after_maxAttempts (T := string)
              (fun _ => Thrown (Text "confirmation timeout"))
              (fun _ => Thrown (Text "confirmation timeout"))
              3 500 (fun _ => Text "confirmation timeout") warmWorld)
    as (Hsend & _ & _ & _ & Hretry & _);
    [reflexivity | lia | reflexivity | reflexivity |].
  split; [exact Hsend | exact Hretry].
Defined.

(** ** Frames *)

Lemma extends_refl (w : World) : extends [] w w.
Proof. unfold extends. rewrite app_nil_r. auto. Qed.

Lemma extends_trans (a b : list Event) (w w1 w2 : World) :
  extends a w w1 -> extends b w1 w2 -> extends (a ++ b) w w2.
Proof.
  unfold extends. intros (H1 & H2 & H3 & H4 & H5) (K1 & K2 & K3 & K4 & K5).
  rewrite K1, K2, K3, K4, K5, H1, H2, H3, H4, H5, app_assoc. auto.
Qed.

Lemma extends_record (events : list Event) (w : World) :
  extends events w (record events w).
Proof. unfold extends, record. cbn. auto. Qed.

Lemma retryOnly_app (a b : list Event) : retryOnly a -> retryOnly b -> retryOnly (a ++ b).
Proof. unfold retryOnly. intros. apply Forall_app. auto. Qed.

Lemma retryOnly_silent (events : list Event) :
  retryOnly events ->
  closeCalls events = [] /\ createCalls events = [] /\ closeReports events = [].
Proof.
  induction 1 as [|ev rest Hev _ (IH1 & IH2 & IH3)]; [auto|].
  destruct ev; try contradiction; cbn; auto.
Qed.

Lemma sendLoop_runs (send : Z -> outcome string) (retries : Z) (n : nat) :
  forall (attempts : Z) (lastError : option Message) (w : World),
    n = Z.to_nat (retries - attempts) ->
    exists r events w',
      Blockchain.sendLoop send retries attempts lastError w = (r, w')
      /\ extends events w w' /\ retryOnly events.
Proof.
  induction n as [|m IH]; intros attempts lastError w Hn;
    rewrite sendLoop_unfold.
  - assert (Hge : (attempts <? retries)%Z = false) by (apply Z.ltb_ge; lia).
    rewrite Hge. eexists _, [], w. split; [reflexivity|].
    split; [apply extends_refl | constructor].
  - assert (Hlt : (attempts <? retries)%Z = true) by (apply Z.ltb_lt; lia).
    rewrite Hlt. unfold tryCatch, bind, lift. rewrite emit_record.
    destruct (send (attempts + 1)%Z) as [signature | error].
    + eexists _, [EvSubmit (attempts + 1)], _. split; [reflexivity|].
      split; [apply extends_record|]. repeat constructor.
    + destruct (attempts + 1 <? retries)%Z.
      * rewrite emit_record, record_app.
        destruct (IH (attempts + 1)%Z (Some error)
                     (record ([EvSubmit (attempts + 1)]
                              ++ [EvSleep (2 ^ (attempts + 1) * 1000)]) w))
          as (r & events & w' & Hrun & Hext & Hretry); [lia|].
        rewrite Hrun. eexists r, (_ ++ events), w'. split; [reflexivity|].
        split; [eapply extends_trans; [apply extends_record | exact Hext]|].
        apply retryOnly_app; [repeat constructor | exact Hretry].
      * unfold ret at 1.
        destruct (IH (attempts + 1)%Z (Some error)
                     (record [EvSubmit (attempts + 1)] w))
          as (r & events & w' & Hrun & Hext & Hretry); [lia|].
        rewrite Hrun. eexists r, (_ ++ events), w'. split; [reflexivity|].
        split; [eapply extends_trans; [apply extends_record | exact Hext]|].
        apply retryOnly_app; [repeat constructor | exact Hretry].
Qed.

Lemma sendTransactionWithRetry_runs (send : Z -> outcome string) (retries : Z)
    (w : World) :
  exists r events w',
    Blockchain.sendTransactionWithRetry send retries w = (r, w')
    /\ extends events w w' /\ retryOnly events.
Proof.
  unfold Blockchain.sendTransactionWithRetry, bind, get.
  destruct (connection w); cbn [negb].
  - apply (sendLoop_runs send retries _ 0 None w eq_refl).
  - eexists _, [], w. split; [reflexivity|].
    split; [apply extends_refl | constructor].
Qed.

Lemma query_runs {A : Type} (ask : nat -> outcome A) (w : World) :
  exists w', query ask w = (ask (clock w), w')
             /\ extends [] w w' /\ clock w' = S (clock w).
Proof.
  eexists. split; [reflexivity|]. split; [|reflexivity].
  unfold extends. cbn. rewrite app_nil_r. auto.
Qed.

Lemma closePosition_runs (env : Env) (id : string) (w : World) :
  exists r events w',
    RaydiumService.closePosition env id w = (r, w')
    /\ extends (EvClosePosition id :: events) w w' /\ retryOnly events.
Proof.
  unfold RaydiumService.closePosition, bind, get. rewrite emit_record.
  cbn [record poolInfo poolKeys].
  destruct (_ || _).
  - eexists _, [], _. split; [reflexivity|].
    split; [apply (extends_record [EvClosePosition id]) | constructor].
  - unfold tryCatch, bind.
    destruct (query_runs (fun c => makeClosePositionInstructionSimple env c id)
                         (record [EvClosePosition id] w))
      as (w1 & Hq & Hext1 & _).
    rewrite Hq.
    pose proof (extends_trans _ _ _ _ _ (extends_record [EvClosePosition id] w) Hext1)
      as Hext.
    destruct (makeClosePositionInstructionSimple env _ id) as [transaction | error].
    + destruct (sendTransactionWithRetry_runs
                  (sendAndConfirmTransaction env transaction)
                  (maxRetryAttempts env) w1)
        as (r & events & w2 & Hrun & Hext2 & Hretry).
      rewrite Hrun.
      exists r, events, w2. split; [destruct r; reflexivity|].
      split; [|exact Hretry].
      apply (extends_trans _ _ _ _ _ Hext Hext2).
    + eexists _, [], w1. split; [reflexivity|].
      split; [exact Hext | constructor].
Qed.

Lemma isPositionInRange_loaded (env : Env) (w : World) (info : PoolInfo)
    (position : Position) :
  poolInfo w = Some info ->
  RaydiumService.isPositionInRange env position w
  = (Returned (inRangeAt (getCurrencyAmount env (sqrtPriceX64 info)) position), w).
Proof.
  intros H. unfold RaydiumService.isPositionInRange, bind.
  rewrite (getCurrentPrice_loaded env w info H). reflexivity.
Qed.

Lemma extends_poolInfo (events : list Event) (w w' : World) :
  extends events w w' -> poolInfo w' = poolInfo w.
Proof. intros (_ & H & _). exact H. Qed.

Lemma createPosition_runs (env : Env) (solAmount usdcAmount lowerPrice upperPrice : R)
    (w : World) :
  exists r events w',
    RaydiumService.createPosition env solAmount usdcAmount lowerPrice upperPrice w
    = (r, w')
    /\ extends (EvCreatePosition solAmount usdcAmount lowerPrice upperPrice :: events)
               w w'
    /\ retryOnly events.
Proof.
  unfold RaydiumService.createPosition, bind at 1, bind at 1, get.
  rewrite emit_record. cbn [record poolInfo poolKeys].
  set (w0 := record [EvCreatePosition solAmount usdcAmount lowerPrice upperPrice] w).
  pose proof (extends_record
                [EvCreatePosition solAmount usdcAmount lowerPrice upperPrice] w)
    as Hext0. fold w0 in Hext0.
  destruct (poolInfo w) as [info|] eqn:Hinfo; cbn [orb].
  2: { eexists _, [], _. split; [reflexivity|]. split; [exact Hext0 | constructor]. }
  destruct (poolKeys w); cbn [negb].
  2: { eexists _, [], _. split; [reflexivity|]. split; [exact Hext0 | constructor]. }
  unfold tryCatch, bind, RaydiumService.calculateTickIndexes, get, bind.
  assert (Hinfo0 : poolInfo w0 = Some info) by exact Hinfo.
  rewrite Hinfo0. unfold ret at 1.
  match goal with
  | |- context [query ?ask w0] =>
      destruct (query_runs ask w0) as (w1 & Hq & Hext1 & _); rewrite Hq
  end.
  pose proof (extends_trans _ _ _ _ _ Hext0 Hext1) as Hext.
  match goal with
  | |- context [match makeOpenPositionInstructionSimple ?e ?c ?a ?b ?x ?y with _ => _ end] =>
      destruct (makeOpenPositionInstructionSimple e c a b x y)
        as [transaction | error]
  end.
  - destruct (sendTransactionWithRetry_runs
                (sendAndConfirmTransaction env transaction)
                (maxRetryAttempts env) w1)
      as (r & events & w2 & Hrun & Hext2 & Hretry).
    rewrite Hrun.
    exists r, events, w2. split; [destruct r; reflexivity|].
    split; [|exact Hretry].
    apply (extends_trans _ _ _ _ _ Hext Hext2).
  - eexists _, [], w1. split; [reflexivity|].
    split; [exact Hext | constructor].
Qed.

(** ** Opening only when funded *)

(** C8: with [availableSol] the SOL balance minus the configured reserve, if
    [availableSol < minSolForPosition] or the USDC balance is below
    [minUsdcForPosition] the reallocation step calls no [createPosition],
    reports no error and returns normally after its three log lines;
    otherwise (pool information being loaded) it calls [createPosition]
    exactly once, with the allocation clamped to the available balances, and
    also returns normally. *)
Theorem C8_open_only_when_funded (env : Env) (w : World)
    (currentPrice lowerBound upperBound : R) (balances : Balances) :
  getTokenBalances env (clock w) = Returned balances ->
  let availableSol := sol balances - minSolBalance env in
  let short :=
    availableSol < LiquidityManager.minSolForPosition
    \/ usdc balances < LiquidityManager.minUsdcForPosition in
  (short ->
   exists w',
     LiquidityManager.openIfFunded env currentPrice lowerBound upperBound w
     = (Returned tt, w')
     /\ extends [EvLog "Insufficient funds to create a new position";
                 EvLog "Requires minimum"; EvLog "Available"] w w')
  /\ (~ short ->
      forall info, poolInfo w = Some info ->
      let amounts :=
        RaydiumService.splitByWeight (getCurrencyAmount env (sqrtPriceX64 info))
          lowerBound upperBound
          ((availableSol * currentPrice + usdc balances) * (98 / 100)) in
      exists events w',
        LiquidityManager.openIfFunded env currentPrice lowerBound upperBound w
        = (Returned tt, w')
        /\ extends events w w'
        /\ createCalls events
           = [(Rmin (solAmount amounts) availableSol,
               Rmin (usdcAmount amounts) (usdc balances),
               lowerBound, upperBound)]).
Proof.
  intros Hbal availableSol short. subst short.
  destruct (query_runs (getTokenBalances env) w) as (w1 & Hq & Hext1 & _).
  rewrite Hbal in Hq.
  split.
  - intros Hshort.
    unfold LiquidityManager.openIfFunded, bind at 1. rewrite Hq.
    fold availableSol.
    assert (Hcond : Rgeb availableSol LiquidityManager.minSolForPosition
                    && Rgeb (usdc balances) LiquidityManager.minUsdcForPosition
                    = false).
    { apply andb_false_iff. destruct Hshort as [H | H];
        [left | right]; apply Rgeb_false; exact H. }
    rewrite Hcond. unfold log, bind. rewrite !emit_record, !record_app.
    eexists. split; [reflexivity|].
    apply (extends_trans _ _ _ _ _ Hext1 (extends_record _ w1)).
  - intros Hfunded info Hinfo amounts.
    unfold LiquidityManager.openIfFunded, bind at 1. rewrite Hq.
    fold availableSol.
    assert (Hcond : Rgeb availableSol LiquidityManager.minSolForPosition
                    && Rgeb (usdc balances) LiquidityManager.minUsdcForPosition
                    = true).
    { apply andb_true_iff. split; apply Rgeb_true; lra. }
    rewrite Hcond. unfold log. unfold bind at 1. rewrite emit_record.
    unfold bind at 1.
    set (w2 := record [EvLog "Creating new position with available funds"] w1).
    assert (Hext2 : extends [EvLog "Creating new position with available funds"] w w2)
      by apply (extends_trans _ _ _ _ _ Hext1 (extends_record _ w1)).
    assert (Hinfo2 : poolInfo w2 = Some info)
      by (rewrite <- Hinfo; apply (extends_poolInfo _ _ _ Hext2)).
    rewrite (getOptimalAmounts_loaded env w2 info _ _ _ Hinfo2).
    fold amounts.
    set (finalSolAmount := Rmin (solAmount amounts) availableSol).
    set (finalUsdcAmount := Rmin (usdcAmount amounts) (usdc balances)).
    unfold tryCatch, bind at 1.
    destruct (createPosition_runs env finalSolAmount finalUsdcAmount
                lowerBound upperBound w2)
      as (r & sub & w3 & Hrun & Hext3 & Hretry).
    rewrite Hrun.
    pose proof (extends_trans _ _ _ _ _ Hext2 Hext3) as Hext.
    destruct (retryOnly_silent sub Hretry) as (_ & Hsilent & _).
    assert (Hcalls : forall front tail,
               createCalls front = [] -> createCalls tail = [] ->
               createCalls ((front
                             ++ EvCreatePosition finalSolAmount finalUsdcAmount
                                  lowerBound upperBound :: sub) ++ tail)
               = [(finalSolAmount, finalUsdcAmount, lowerBound, upperBound)]).
    { intros front tail Hfront Htail. rewrite !createCalls_app.
      change (createCalls (EvCreatePosition ?a ?b ?c ?d :: ?l))
        with ((a, b, c, d) :: createCalls l).
      rewrite Hfront, Hsilent, Htail. reflexivity. }
    destruct r as [signature | error].
    + unfold notify. unfold bind at 1. rewrite emit_record.
      unfold bind at 1. rewrite emit_record, record_app.
      unfold bind at 1.
      match goal with
      | |- context [query ?ask ?w4] =>
          destruct (query_runs ask w4) as (w5 & Hq5 & Hext5 & _); rewrite Hq5
      end.
      match goal with
      | |- context [match getTokenBalances env ?c with _ => _ end] =>
          destruct (getTokenBalances env c) as [newBalances | error]
      end.
      * unfold bind. rewrite !emit_record, !record_app.
        eexists _, _. split; [reflexivity|].
        split.
        { eapply extends_trans; [|apply extends_record].
          eapply extends_trans; [|exact Hext5].
          eapply extends_trans; [exact Hext | apply extends_record]. }
        rewrite !app_nil_r, <- !app_assoc, app_assoc. apply Hcalls; reflexivity.
      * unfold bind. rewrite !emit_record, !record_app.
        eexists _, _. split; [reflexivity|].
        split.
        { eapply extends_trans; [|apply extends_record].
          eapply extends_trans; [|exact Hext5].
          eapply extends_trans; [exact Hext | apply extends_record]. }
        rewrite !app_nil_r, <- !app_assoc, app_assoc. apply Hcalls; reflexivity.
    + unfold notify, bind. rewrite !emit_record, !record_app.
      eexists _, _. split; [reflexivity|].
      split; [eapply extends_trans; [exact Hext | apply extends_record]|].
      apply Hcalls; reflexivity.
Qed.

Lemma C8_open_only_when_funded_witness :
  (exists w',
     LiquidityManager.openIfFunded poorEnv 100 95 105 warmWorld = (Returned tt, w')
     /\ extends [EvLog "Insufficient funds to create a new position";
                 EvLog "Requires minimum"; EvLog "Available"] warmWorld w')
  /\ (exists events w',
        LiquidityManager.openIfFunded sampleEnv 100 95 105 warmWorld = (Returned tt, w')
        /\ extends events warmWorld w'
        /\ List.length (createCalls events) = 1%nat).
Proof.
  split.
  - destruct (C8_open_only_when_funded poorEnv warmWorld 100 95 105
                (mkBalances (1 / 10) 5) eq_refl) as [Hskip _].
    apply Hskip. left.
    unfold LiquidityManager.minSolForPosition. cbn [sol poorEnv minSolBalance]. lra.
  - destruct (C8_open_only_when_funded sampleEnv warmWorld 100 95 105
                (mkBalances 1 100) eq_refl) as [_ Hopen].
    destruct (Hopen) with (info := samplePool) as (events & w' & Hrun & Hext & Hcalls).
    + unfold LiquidityManager.minSolForPosition, LiquidityManager.minUsdcForPosition.
      cbn [sol usdc sampleEnv minSolBalance]. intros [H | H]; lra.
    + reflexivity.
    + exists events, w'. split; [exact Hrun|]. split; [exact Hext|].
      rewrite Hcalls. reflexivity.
Defined.

(** ** Listing positions *)

(** Once [getCurrentPrice] has returned, pool information is loaded. *)
Lemma getCurrentPrice_returns_loaded (env : Env) (w w' : World) (price : R) :
  RaydiumService.getCurrentPrice env w = (Returned price, w') ->
  exists info, poolInfo w' = Some info.
Proof.
  unfold RaydiumService.getCurrentPrice, bind at 1, get, bind at 1.
  destruct ((match poolInfo w with
             | Some _ => ret tt
             | None => RaydiumService.fetchPoolInfo env
             end) w) as [[[]|e] w1]; [|discriminate].
  unfold bind. destruct (poolInfo w1) as [info|] eqn:Hinfo.
  - unfold ret. intros H. injection H as _ <-. exists info. exact Hinfo.
  - discriminate.
Qed.

Lemma getPriceRange_loaded (env : Env) (w : World) (info : PoolInfo) :
  poolInfo w = Some info ->
  let currentPrice := getCurrencyAmount env (sqrtPriceX64 info) in
  RaydiumService.getPriceRange env w
  = (Returned (mkPriceRange (currentPrice * (1 - priceRangePercent env / 100))
                            (currentPrice * (1 + priceRangePercent env / 100))), w).
Proof.
  intros H. unfold RaydiumService.getPriceRange, bind.
  rewrite (getCurrentPrice_loaded env w info H). reflexivity.
Qed.

Lemma getPositions_loaded (env : Env) (w : World) (info : PoolInfo) :
  poolInfo w = Some info ->
  exists w',
    RaydiumService.getPositions env w = (Returned (surveyed env (clock w)), w')
    /\ extends [] w w' /\ clock w' = S (clock w).
Proof.
  intros Hinfo.
  destruct (query_runs (fetchMultiplePoolTickArrays env) w) as (w' & Hq & Hext & Hclock).
  exists w'. split; [|split; [exact Hext | exact Hclock]].
  unfold RaydiumService.getPositions, bind at 1, get, bind at 1.
  rewrite Hinfo. unfold ret at 1. unfold tryCatch, bind. rewrite Hq.
  unfold surveyed.
  destruct (fetchMultiplePoolTickArrays env (clock w)); reflexivity.
Qed.

(** C10 (as amended): with pool information loaded, [getPositions] returns a
    list for every outcome of the position query, the wallet's own positions
    when the query answers and the empty list when it throws, and leaves
    pool state and trace as they were. *)
Theorem C10_getPositions_total_when_loaded (env : Env) (w : World) (info : PoolInfo) :
  poolInfo w = Some info ->
  exists w',
    RaydiumService.getPositions env w = (Returned (surveyed env (clock w)), w')
    /\ extends [] w w'
    /\ (forall e, fetchMultiplePoolTickArrays env (clock w) = Thrown e ->
        surveyed env (clock w) = []).
Proof.
  intros Hinfo.
  destruct (getPositions_loaded env w info Hinfo) as (w' & Hrun & Hext & _).
  exists w'. split; [exact Hrun|]. split; [exact Hext|].
  intros e He. unfold surveyed. rewrite He. reflexivity.
Qed.

Lemma C10_getPositions_total_when_loaded_witness :
  exists w',
    RaydiumService.getPositions offlineEnv warmWorld = (Returned [], w')
    /\ extends [] warmWorld w'.
Proof.
  destruct (C10_getPositions_total_when_loaded offlineEnv warmWorld samplePool eq_refl)
    as (w' & Hrun & Hext & _).
  exists w'. split; [exact Hrun | exact Hext].
Defined.

(** C10 fails as stated: before pool information is loaded, a failing
    pool-information fetch makes [getPositions] throw instead of returning
    the empty list. *)
Lemma C10_getPositions_throws_when_cold :
  poolInfo coldWorld = None
  /\ fetchMultiplePoolInfos offlineEnv (clock coldWorld) = Thrown (Text "network down")
  /\ RaydiumService.getPositions offlineEnv coldWorld
     = (Thrown (Text "network down"), mkWorld true None true false 1 []).
Proof. repeat split. Qed.

(** ** The cycle as a whole *)

(** Once initialised, a cycle never throws: whatever goes wrong inside is
    caught at the end, logged and notified. *)
Lemma managePositions_returns (env : Env) (w : World) :
  isInitialized w = true ->
  fst (LiquidityManager.managePositions env w) = Returned tt.
Proof.
  intros Hinit.
  unfold LiquidityManager.managePositions, bind at 1, get, bind at 1.
  rewrite Hinit. cbn [negb]. unfold ret at 1. unfold tryCatch.
  match goal with
  | |- context [match ?body w with _ => _ end] =>
      destruct (body w) as [[[]|e] w']
  end; reflexivity.
Qed.

(** ** Closing what left the range *)

(** One pass over the positions, pool information being loaded: the close
    calls are the out-of-range positions in order, each is reported once,
    nothing is opened, and the pass returns normally. *)
Lemma closeOutOfRange_runs (env : Env) (info : PoolInfo)
    (positions : list Position) :
  forall (positionClosed : bool) (w : World),
  poolInfo w = Some info ->
  let currentPrice := getCurrencyAmount env (sqrtPriceX64 info) in
  let outOfRange :=
    filter (fun position => negb (inRangeAt currentPrice position)) positions in
  exists closed events w',
    LiquidityManager.closeOutOfRange env positions positionClosed w
    = (Returned closed, w')
    /\ extends events w w'
    /\ closeCalls events = map positionId outOfRange
    /\ closeReports events = map positionId outOfRange
    /\ createCalls events = [].
Proof.
  induction positions as [|position rest IH]; intros positionClosed w Hinfo;
    cbn zeta.
  - exists positionClosed, [], w. split; [reflexivity|].
    split; [apply extends_refl|]. auto.
  - cbn [LiquidityManager.closeOutOfRange filter]. unfold bind at 1.
    rewrite (isPositionInRange_loaded env w info position Hinfo).
    destruct (inRangeAt (getCurrencyAmount env (sqrtPriceX64 info)) position);
      cbn [negb].
    + unfold bind at 1. unfold bind at 1. unfold log. rewrite emit_record.
      unfold ret at 1.
      destruct (IH positionClosed (record [EvLog "Position is in range, keeping"] w))
        as (closed & events & w' & Hrun & Hext & Hclose & Hreport & Hcreate);
        [exact Hinfo|].
      exists closed, ([EvLog "Position is in range, keeping"] ++ events), w'.
      split; [exact Hrun|].
      split; [eapply extends_trans; [apply extends_record | exact Hext]|].
      rewrite closeCalls_app, closeReports_app, createCalls_app.
      auto.
    + unfold bind at 1. unfold bind at 1. unfold log at 1. rewrite emit_record.
      unfold tryCatch, bind at 1.
      destruct (closePosition_runs env (positionId position)
                  (record [EvLog "Position is out of range, closing"] w))
        as (r & sub & w1 & Hrun1 & Hext1 & Hretry).
      rewrite Hrun1.
      pose proof (extends_trans _ _ _ _ _
                    (extends_record [EvLog "Position is out of range, closing"] w)
                    Hext1) as Hext01.
      destruct (retryOnly_silent sub Hretry) as (Hs1 & Hs2 & Hs3).
      destruct r as [signature | error].
      * unfold notify, bind. rewrite !emit_record, !record_app. unfold ret at 1.
        match goal with
        | |- context [LiquidityManager.closeOutOfRange env rest true ?w2] =>
            destruct (IH true w2)
              as (closed & events & w' & Hrun & Hext & Hclose & Hreport & Hcreate);
            [rewrite <- Hinfo;
             apply (extends_poolInfo _ _ _
                      (extends_trans _ _ _ _ _ Hext01 (extends_record _ w1)))|];
            exists closed; eexists; exists w';
            split; [exact Hrun|];
            split; [exact (extends_trans _ _ _ _ _
                             (extends_trans _ _ _ _ _ Hext01 (extends_record _ w1))
                             Hext)|]
        end.
        rewrite !closeCalls_app, !closeReports_app, !createCalls_app.
        cbn [map]. change (closeCalls (EvClosePosition ?i :: ?l)) with (i :: closeCalls l).
        change (closeReports (EvClosePosition ?i :: ?l)) with (closeReports l).
        change (createCalls (EvClosePosition ?i :: ?l)) with (createCalls l).
        rewrite Hs1, Hs2, Hs3, Hclose, Hreport, Hcreate. cbn. auto.
      * unfold log, notify, bind. rewrite !emit_record, !record_app. unfold ret at 1.
        match goal with
        | |- context [LiquidityManager.closeOutOfRange env rest positionClosed ?w2] =>
            destruct (IH positionClosed w2)
              as (closed & events & w' & Hrun & Hext & Hclose & Hreport & Hcreate);
            [rewrite <- Hinfo;
             apply (extends_poolInfo _ _ _
                      (extends_trans _ _ _ _ _ Hext01 (extends_record _ w1)))|];
            exists closed; eexists; exists w';
            split; [exact Hrun|];
            split; [exact (extends_trans _ _ _ _ _
                             (extends_trans _ _ _ _ _ Hext01 (extends_record _ w1))
                             Hext)|]
        end.
        rewrite !closeCalls_app, !closeReports_app, !createCalls_app.
        cbn [map]. change (closeCalls (EvClosePosition ?i :: ?l)) with (i :: closeCalls l).
        change (closeReports (EvClosePosition ?i :: ?l)) with (closeReports l).
        change (createCalls (EvClosePosition ?i :: ?l)) with (createCalls l).
        rewrite Hs1, Hs2, Hs3, Hclose, Hreport, Hcreate. cbn. auto.
Qed.

(** ** The cycle, close calls only *)

Lemma noClose_refl (w : World) : noCloseBetween w w.
Proof. exists []. split; [apply extends_refl | reflexivity]. Qed.

Lemma noClose_trans (w w1 w2 : World) :
  noCloseBetween w w1 -> noCloseBetween w1 w2 -> noCloseBetween w w2.
Proof.
  intros (a & Ha & Hca) (b & Hb & Hcb). exists (a ++ b).
  split; [exact (extends_trans _ _ _ _ _ Ha Hb)|].
  rewrite closeCalls_app, Hca, Hcb. reflexivity.
Qed.

Lemma noClose_extends (events : list Event) (w w' : World) :
  extends events w w' -> closeCalls events = [] -> noCloseBetween w w'.
Proof. intros H Hc. exists events. auto. Qed.

Lemma noClose_poolInfo (w w' : World) :
  noCloseBetween w w' -> poolInfo w' = poolInfo w.
Proof. intros (events & H & _). exact (extends_poolInfo _ _ _ H). Qed.

Ltac no_close_step :=
  first
    [ apply noClose_refl
    | assumption
    | eapply noClose_extends; [eassumption | reflexivity]
    | eapply noClose_extends; [apply extends_record | reflexivity] ].

(** The reallocation step closes nothing, whichever way it goes. *)
Lemma openIfFunded_noClose (env : Env) (w : World) (info : PoolInfo)
    (currentPrice lowerBound upperBound : R) :
  poolInfo w = Some info ->
  exists r w',
    LiquidityManager.openIfFunded env currentPrice lowerBound upperBound w = (r, w')
    /\ noCloseBetween w w'.
Proof.
  intros Hinfo.
  destruct (query_runs (getTokenBalances env) w) as (w1 & Hq & Hext1 & _).
  unfold LiquidityManager.openIfFunded, bind at 1. rewrite Hq.
  assert (H01 : noCloseBetween w w1) by no_close_step.
  destruct (getTokenBalances env (clock w)) as [balances | error].
  2: { eexists _, _. split; [reflexivity | exact H01]. }
  destruct (_ && _).
  - unfold log. unfold bind at 1. rewrite emit_record. unfold bind at 1.
    match goal with
    | |- context [RaydiumService.getOptimalAmounts env ?lo ?hi ?t ?w2] =>
        assert (H12 : noCloseBetween w1 w2) by no_close_step;
        assert (Hinfo2 : poolInfo w2 = Some info)
          by (rewrite <- Hinfo;
              apply (noClose_poolInfo _ _ (noClose_trans _ _ _ H01 H12)));
        rewrite (getOptimalAmounts_loaded env w2 info lo hi t Hinfo2)
    end.
    unfold tryCatch, bind at 1.
    match goal with
    | |- context [RaydiumService.createPosition env ?s ?u ?lo ?hi ?w2] =>
        destruct (createPosition_runs env s u lo hi w2)
          as (r & sub & w3 & Hrun & Hext3 & Hretry); rewrite Hrun;
        assert (H23 : noCloseBetween w2 w3)
    end.
    { eapply noClose_extends; [exact Hext3|].
      change (closeCalls (EvCreatePosition ?a ?b ?c ?d :: ?l)) with (closeCalls l).
      apply (retryOnly_silent sub Hretry). }
    pose proof (noClose_trans _ _ _ (noClose_trans _ _ _ H01 H12) H23) as H03.
    destruct r as [signature | error].
    + unfold notify. unfold bind at 1. rewrite emit_record.
      unfold bind at 1. rewrite emit_record, record_app.
      unfold bind at 1.
      match goal with
      | |- context [query ?ask ?w4] =>
          destruct (query_runs ask w4) as (w5 & Hq5 & Hext5 & _); rewrite Hq5;
          assert (H35 : noCloseBetween w3 w5)
            by (eapply noClose_trans; [|eapply noClose_extends;
                                         [exact Hext5 | reflexivity]];
                no_close_step)
      end.
      match goal with
      | |- context [match getTokenBalances env ?c with _ => _ end] =>
          destruct (getTokenBalances env c) as [newBalances | error]
      end.
      * unfold bind. rewrite !emit_record, !record_app.
        eexists _, _. split; [reflexivity|].
        eapply noClose_trans; [exact H03|].
        eapply noClose_trans; [exact H35 | no_close_step].
      * unfold bind. rewrite !emit_record, !record_app.
        eexists _, _. split; [reflexivity|].
        eapply noClose_trans; [exact H03|].
        eapply noClose_trans; [exact H35 | no_close_step].
    + unfold notify, bind. rewrite !emit_record, !record_app.
      eexists _, _. split; [reflexivity|].
      eapply noClose_trans; [exact H03 | no_close_step].
  - unfold log, bind. rewrite !emit_record, !record_app.
    eexists _, _. split; [reflexivity|].
    eapply noClose_trans; [exact H01 | no_close_step].
Qed.

Lemma managePositions_close_calls (env : Env) (w : World) (info : PoolInfo)
    (balances : Balances) :
  isInitialized w = true ->
  poolInfo w = Some info ->
  getTokenBalances env (clock w) = Returned balances ->
  exists events w',
    LiquidityManager.managePositions env w = (Returned tt, w')
    /\ extends events w w'
    /\ closeCalls events
       = map positionId
           (filter (fun position =>
                      negb (inRangeAt (getCurrencyAmount env (sqrtPriceX64 info))
                                      position))
                   (surveyed env (S (clock w)))).
Proof.
  intros Hinit Hinfo Hbal.
  unfold LiquidityManager.managePositions, bind at 1, get, bind at 1.
  rewrite Hinit. cbn [negb]. unfold ret at 1. unfold tryCatch.
  (* up to the survey *)
  unfold log at 1. unfold bind at 1. rewrite emit_record.
  set (w1 := record [EvLog "Starting position management cycle"] w).
  assert (Hinfo1 : poolInfo w1 = Some info) by exact Hinfo.
  unfold bind at 1. rewrite (getCurrentPrice_loaded env w1 info Hinfo1).
  unfold bind at 1. rewrite (getPriceRange_loaded env w1 info Hinfo1).
  cbn [lowerBound upperBound].
  unfold notify at 1. unfold bind at 1. rewrite emit_record.
  unfold bind at 1.
  match goal with
  | |- context [query (getTokenBalances env) ?w2] =>
      destruct (query_runs (getTokenBalances env) w2) as (w3 & Hq & Hext3 & Hclock3);
      rewrite Hq;
      assert (H03 : noCloseBetween w w3)
        by (eapply noClose_trans; [|eapply noClose_extends;
                                     [exact Hext3 | reflexivity]];
            subst w1; rewrite record_app; no_close_step)
  end.
  match goal with
  | |- context [match getTokenBalances env ?c with _ => _ end] =>
      change c with (clock w)
  end.
  rewrite Hbal.
  unfold log at 1. unfold bind at 1. rewrite emit_record.
  set (w4 := record [EvLog "Current balances"] w3).
  assert (H04 : noCloseBetween w w4)
    by (eapply noClose_trans; [exact H03 | subst w4; no_close_step]).
  assert (Hinfo4 : poolInfo w4 = Some info)
    by (rewrite <- Hinfo; apply (noClose_poolInfo _ _ H04)).
  unfold bind at 1.
  destruct (getPositions_loaded env w4 info Hinfo4) as (w5 & Hget & Hext5 & _).
  rewrite Hget.
  assert (Hclock4 : clock w4 = S (clock w))
    by (subst w4; cbn [record clock]; rewrite Hclock3; reflexivity).
  rewrite Hclock4.
  unfold log at 1. unfold bind at 1. rewrite emit_record.
  set (w6 := record [EvLog "Found existing positions"] w5).
  assert (H06 : noCloseBetween w w6).
  { eapply noClose_trans; [exact H04|].
    eapply noClose_trans; [eapply noClose_extends; [exact Hext5 | reflexivity]|].
    subst w6; no_close_step. }
  assert (Hinfo6 : poolInfo w6 = Some info)
    by (rewrite <- Hinfo; apply (noClose_poolInfo _ _ H06)).
  (* the loop *)
  unfold bind at 1.
  destruct (closeOutOfRange_runs env info (surveyed env (S (clock w))) false w6 Hinfo6)
    as (closed & loopEvents & w7 & Hloop & Hext7 & Hcalls & _).
  rewrite Hloop.
  destruct H06 as (before & Hbefore & Hquiet).
  pose proof (extends_trans _ _ _ _ _ Hbefore Hext7) as H07.
  assert (Hinfo7 : poolInfo w7 = Some info)
    by (rewrite <- Hinfo; apply (extends_poolInfo _ _ _ H07)).
  assert (Hdone : forall r w' ,
             noCloseBetween w7 w' ->
             exists events w'',
               (match r with
                | Returned u => (Returned u, w')
                | Thrown e =>
                    (log "Error managing positions" ;;;
                     notify (ErrorNote "Error during position management cycle"
                                       None e)) w'
                end) = (Returned tt, w'')
               /\ extends events w w''
               /\ closeCalls events
                  = map positionId
                      (filter (fun position =>
                                 negb (inRangeAt
                                         (getCurrencyAmount env (sqrtPriceX64 info))
                                         position))
                              (surveyed env (S (clock w))))).
  { intros r w' (after & Hafter & Hquiet').
    destruct r as [[] | e].
    - eexists _, w'. split; [reflexivity|].
      split; [exact (extends_trans _ _ _ _ _ H07 Hafter)|].
      rewrite !closeCalls_app, Hquiet, Hquiet', Hcalls.
      cbn [app closeCalls flat_map]. rewrite ?app_nil_r. reflexivity.
    - unfold log, notify, bind. rewrite !emit_record, !record_app.
      eexists _, _. split; [reflexivity|].
      split; [exact (extends_trans _ _ _ _ _
                       (extends_trans _ _ _ _ _ H07 Hafter) (extends_record _ w'))|].
      rewrite !closeCalls_app, Hquiet, Hquiet', Hcalls.
      cbn [app closeCalls flat_map]. rewrite ?app_nil_r. reflexivity. }
  assert (Hopen : forall w8,
             noCloseBetween w7 w8 ->
             exists r w',
               (LiquidityManager.openIfFunded env
                  (getCurrencyAmount env (sqrtPriceX64 info))
                  (getCurrencyAmount env (sqrtPriceX64 info)
                   * (1 - priceRangePercent env / 100))
                  (getCurrencyAmount env (sqrtPriceX64 info)
                   * (1 + priceRangePercent env / 100)) ;;;
                log "Position management cycle completed") w8 = (r, w')
               /\ noCloseBetween w7 w').
  { intros w8 H78.
    assert (Hinfo8 : poolInfo w8 = Some info)
      by (rewrite <- Hinfo7; apply (noClose_poolInfo _ _ H78)).
    destruct (openIfFunded_noClose env w8 info
                (getCurrencyAmount env (sqrtPriceX64 info))
                (getCurrencyAmount env (sqrtPriceX64 info)
                 * (1 - priceRangePercent env / 100))
                (getCurrencyAmount env (sqrtPriceX64 info)
                 * (1 + priceRangePercent env / 100)) Hinfo8)
      as (r & w9 & Hrun & H89).
    unfold bind. rewrite Hrun.
    destruct r as [[] | e].
    - unfold log. rewrite emit_record. eexists _, _. split; [reflexivity|].
      eapply noClose_trans; [exact H78|].
      eapply noClose_trans; [exact H89 | no_close_step].
    - eexists _, _. split; [reflexivity|].
      eapply noClose_trans; [exact H78 | exact H89]. }
  assert (Htail : exists r w',
             ((if closed
               then
                 updatedBalances <- query (getTokenBalances env) ;;
                 notify (BalanceNote updatedBalances) ;;;
                 log "Updated balances after closing positions"
               else ret tt) ;;;
              LiquidityManager.openIfFunded env
                (getCurrencyAmount env (sqrtPriceX64 info))
                (getCurrencyAmount env (sqrtPriceX64 info)
                 * (1 - priceRangePercent env / 100))
                (getCurrencyAmount env (sqrtPriceX64 info)
                 * (1 + priceRangePercent env / 100)) ;;;
              log "Position management cycle completed") w7 = (r, w')
             /\ noCloseBetween w7 w').
  { unfold bind at 1. destruct closed.
    - unfold bind at 1.
      destruct (query_runs (getTokenBalances env) w7) as (w8 & Hq8 & Hext8 & _).
      rewrite Hq8.
      assert (H78 : noCloseBetween w7 w8) by no_close_step.
      destruct (getTokenBalances env (clock w7)) as [updatedBalances | e].
      + unfold notify, log, bind at 1. rewrite !emit_record, !record_app.
        apply Hopen.
        eapply noClose_trans; [exact H78 | no_close_step].
      + eexists _, _. split; [reflexivity | exact H78].
    - unfold ret at 1. apply Hopen. apply noClose_refl. }
  destruct Htail as (r & w' & Hrun & Hquiet7).
  rewrite Hrun. apply Hdone. exact Hquiet7.
Qed.

(** C7: the close calls of the orchestrator are exactly the out-of-range
    positions, in order, and an in-range position gets none; every such
    position is reported once, as withdrawn or as failed; the pass over the
    positions returns normally whatever the closes did, so a failed close
    never stops the positions after it from being processed.  This holds for
    the loop on any list of positions once pool information is loaded, and
    for a whole cycle of an initialised manager whose first balance query
    answers, on the positions it enumerates. *)
Theorem C7_close_exactly_out_of_range (env : Env) (info : PoolInfo) :
  let outOfRange positions :=
    filter (fun position =>
              negb (inRangeAt (getCurrencyAmount env (sqrtPriceX64 info)) position))
           positions in
  (forall (positions : list Position) (positionClosed : bool) (w : World),
     poolInfo w = Some info ->
     exists closed events w',
       LiquidityManager.closeOutOfRange env positions positionClosed w
       = (Returned closed, w')
       /\ extends events w w'
       /\ closeCalls events = map positionId (outOfRange positions)
       /\ closeReports events = map positionId (outOfRange positions))
  /\ (forall (w : World) (balances : Balances),
       isInitialized w = true ->
       poolInfo w = Some info ->
       getTokenBalances env (clock w) = Returned balances ->
       exists events w',
         LiquidityManager.managePositions env w = (Returned tt, w')
         /\ extends events w w'
         /\ closeCalls events
            = map positionId (outOfRange (surveyed env (S (clock w))))).
Proof.
  intros outOfRange. split.
  - intros positions positionClosed w Hinfo.
    destruct (closeOutOfRange_runs env info positions positionClosed w Hinfo)
      as (closed & events & w' & Hrun & Hext & Hclose & Hreport & _).
    exists closed, events, w'. auto.
  - intros w balances Hinit Hinfo Hbal.
    exact (managePositions_close_calls env w info balances Hinit Hinfo Hbal).
Qed.

Lemma C7_close_exactly_out_of_range_witness :
  (exists closed events w',
     LiquidityManager.closeOutOfRange sampleEnv samplePositions false warmWorld
     = (Returned closed, w')
     /\ extends events warmWorld w'
     /\ closeCalls events = ["below"; "foreign"]%string
     /\ closeReports events = ["below"; "foreign"]%string)
  /\ (exists events w',
        LiquidityManager.managePositions sampleEnv warmWorld = (Returned tt, w')
        /\ extends events warmWorld w'
        /\ closeCalls events = ["below"]%string).
Proof.
  assert (Hin : forall owner solAmount usdcAmount,
             inRangeAt 100 (mkPosition "inside" owner 95 105 solAmount usdcAmount)
             = true).
  { intros. unfold inRangeAt. cbn [p_lowerPrice p_upperPrice].
    decide_cmp. reflexivity. }
  assert (Hout : forall id owner solAmount usdcAmount,
             inRangeAt 100 (mkPosition id owner 80 90 solAmount usdcAmount) = false).
  { intros. unfold inRangeAt. cbn [p_lowerPrice p_upperPrice].
    decide_cmp. reflexivity. }
  destruct (C7_close_exactly_out_of_range sampleEnv samplePool) as [Hloop Hcycle].
  split.
  - destruct (Hloop samplePositions false warmWorld eq_refl)
      as (closed & events & w' & Hrun & Hext & Hclose & Hreport).
    exists closed, events, w'.
    split; [exact Hrun|]. split; [exact Hext|].
    unfold samplePositions in Hclose, Hreport.
    cbn [filter sampleEnv getCurrencyAmount] in Hclose, Hreport.
    rewrite Hin, !Hout in Hclose, Hreport.
    split; assumption.
  - destruct (Hcycle warmWorld (mkBalances 1 100) eq_refl eq_refl eq_refl)
      as (events & w' & Hrun & Hext & Hclose).
    exists events, w'.
    split; [exact Hrun|]. split; [exact Hext|].
    unfold surveyed, samplePositions in Hclose.
    cbn [sampleEnv fetchMultiplePoolTickArrays keypairPublicKey ownerAddress
         samplePositions filter String.eqb Ascii.eqb Bool.eqb getCurrencyAmount]
      in Hclose.
    rewrite Hin, !Hout in Hclose. exact Hclose.
Defined.

(** * Further properties *)

(** ** The price window *)

(** With pool information loaded, a positive price and a positive configured
    percentage, [getPriceRange] returns a window strictly around the price
    and symmetric about it, without touching the state; below 100 percent
    the lower bound is positive. *)
Theorem getPriceRange_window (env : Env) (w : World) (info : PoolInfo) :
  poolInfo w = Some info ->
  0 < getCurrencyAmount env (sqrtPriceX64 info) ->
  0 < priceRangePercent env ->
  let price := getCurrencyAmount env (sqrtPriceX64 info) in
  exists range,
    RaydiumService.getPriceRange env w = (Returned range, w)
    /\ lowerBound range < price < upperBound range
    /\ upperBound range - price = price - lowerBound range
    /\ (priceRangePercent env < 100 -> 0 < lowerBound range).
Proof.
  intros Hinfo Hprice Hpercent price.
  eexists. split; [apply (getPriceRange_loaded env w info Hinfo)|].
  cbn [lowerBound upperBound]. fold price.
  assert (Hp : 0 < price) by exact Hprice. clearbody price.
  assert (Hr : 0 < priceRangePercent env / 100) by lra.
  set (r := priceRangePercent env / 100) in *.
  split; [split; nra|]. split; [ring|].
  intros Hlt. assert (r < 1) by (subst r; lra). nra.
Qed.

Lemma getPriceRange_window_witness :
  exists range,
    RaydiumService.getPriceRange sampleEnv warmWorld = (Returned range, warmWorld)
    /\ lowerBound range < 100 < upperBound range.
Proof.
  destruct (getPriceRange_window sampleEnv warmWorld samplePool eq_refl)
    as (range & Hrun & Hwin & _); [cbn; lra | cbn; lra |].
  exists range. split; [exact Hrun | exact Hwin].
Defined.

(** ** Reading the price on a cold service *)

(** On a service without pool information [getCurrentPrice] asks the node
    once; when the node answers with at least one pool, the first is kept
    as pool information (pool keys are set) and its price is returned. *)
Theorem getCurrentPrice_cold_loads (env : Env) (w : World)
    (first : PoolInfo) (rest : list PoolInfo) :
  poolInfo w = None ->
  fetchMultiplePoolInfos env (clock w) = Returned (first :: rest) ->
  RaydiumService.getCurrentPrice env w
  = (Returned (getCurrencyAmount env (sqrtPriceX64 first)),
     mkWorld (connection w) (Some first) true (isInitialized w)
             (S (clock w)) (trace w)).
Proof.
  intros Hnone Hfetch.
  unfold RaydiumService.getCurrentPrice, bind at 1, get, bind at 1.
  rewrite Hnone.
  unfold RaydiumService.fetchPoolInfo, tryCatch, bind at 1, setPoolKeys,
    bind at 1, query.
  cbn [clock]. rewrite Hfetch. cbn. reflexivity.
Qed.

Lemma getCurrentPrice_cold_loads_witness :
  RaydiumService.getCurrentPrice sampleEnv coldWorld
  = (Returned 100, mkWorld true (Some samplePool) true false 1 []).
Proof.
  exact (getCurrentPrice_cold_loads sampleEnv coldWorld samplePool [] eq_refl eq_refl).
Defined.



(** ** Range membership *)

(** With pool information loaded, [isPositionInRange] answers true exactly
    when the cached price lies between the position's bounds, both bounds
    included, and leaves the state as it was. *)
Theorem isPositionInRange_inclusive (env : Env) (w : World) (info : PoolInfo)
    (position : Position) :
  poolInfo w = Some info ->
  let price := getCurrencyAmount env (sqrtPriceX64 info) in
  exists inRange,
    RaydiumService.isPositionInRange env position w = (Returned inRange, w)
    /\ (inRange = true <-> p_lowerPrice position <= price <= p_upperPrice position).
Proof.
  intros Hinfo price.
  exists (inRangeAt price position).
  split; [apply (isPositionInRange_loaded env w info position Hinfo)|].
  unfold inRangeAt. rewrite andb_true_iff, Rgeb_true, Rleb_true. tauto.
Qed.

Lemma isPositionInRange_inclusive_witness :
  exists inRange,
    RaydiumService.isPositionInRange sampleEnv
      (mkPosition "edge" "wallet" 100 105 1 0) warmWorld = (Returned inRange, warmWorld)
    /\ inRange = true.
Proof.
  destruct (isPositionInRange_inclusive sampleEnv warmWorld samplePool
              (mkPosition "edge" "wallet" 100 105 1 0) eq_refl)
    as (inRange & Hrun & Hiff).
  exists inRange. split; [exact Hrun|].
  apply Hiff. cbn. lra.
Defined.

(** ** The submitter in general *)

Lemma sendLoop_counts (send : Z -> outcome string) (retries : Z) (n : nat) :
  forall (attempts : Z) (lastError : option Message) (w : World),
    n = Z.to_nat (retries - attempts) ->
    exists r events,
      Blockchain.sendLoop send retries attempts lastError w = (r, record events w)
      /\ retryOnly events
      /\ (List.length (attemptsOf events) <= n)%nat
      /\ (n <> O -> List.length (attemptsOf events) <> O)
      /\ List.length (sleepsOf events) = Nat.pred (List.length (attemptsOf events)).
Proof.
  induction n as [|m IH]; intros attempts lastError w Hn;
    rewrite sendLoop_unfold.
  - assert (Hge : (attempts <? retries)%Z = false) by (apply Z.ltb_ge; lia).
    rewrite Hge. eexists _, []. rewrite record_nil.
    split; [reflexivity|]. split; [constructor|]. cbn. repeat split; lia.
  - assert (Hlt : (attempts <? retries)%Z = true) by (apply Z.ltb_lt; lia).
    rewrite Hlt. unfold tryCatch, bind, lift. rewrite emit_record.
    destruct (send (attempts + 1)%Z) as [signature | error].
    + eexists _, [EvSubmit (attempts + 1)]. split; [reflexivity|].
      split; [repeat constructor|]. cbn. repeat split; lia.
    + destruct (attempts + 1 <? retries)%Z eqn:Hmore.
      * apply Z.ltb_lt in Hmore.
        rewrite emit_record, record_app.
        destruct (IH (attempts + 1)%Z (Some error)
                     (record ([EvSubmit (attempts + 1)]
                              ++ [EvSleep (2 ^ (attempts + 1) * 1000)]) w))
          as (r & events & Hrun & Hretry & Hle & Hpos & Hsleeps); [lia|].
        rewrite Hrun, record_app.
        eexists r, _. split; [reflexivity|].
        split; [apply retryOnly_app; [repeat constructor | exact Hretry]|].
        rewrite !attemptsOf_app, !sleepsOf_app, !length_app. cbn.
        assert (m <> O) by lia. specialize (Hpos H).
        repeat split; lia.
      * apply Z.ltb_ge in Hmore. unfold ret at 1.
        destruct (IH (attempts + 1)%Z (Some error)
                     (record [EvSubmit (attempts + 1)] w))
          as (r & events & Hrun & Hretry & Hle & Hpos & Hsleeps); [lia|].
        rewrite Hrun, record_app.
        eexists r, _. split; [reflexivity|].
        split; [apply retryOnly_app; [repeat constructor | exact Hretry]|].
        rewrite !attemptsOf_app, !sleepsOf_app, !length_app. cbn.
        assert (Hm : m = O) by lia. rewrite Hm in Hle.
        assert (Hzero : List.length (attemptsOf events) = O) by lia.
        rewrite Hzero in *. cbn in Hsleeps.
        repeat split; lia.
Qed.


Lemma retriedTrace_counts (attemptEvent : Z -> Event) (delay : Z -> Z)
    (failures : nat) (failed : Z) :
  (forall k, attemptsOf [attemptEvent k] = [k]) ->
  (forall k, sleepsOf [attemptEvent k] = []) ->
  attemptsOf (retriedTrace attemptEvent delay failures failed)
  = map (fun i => (failed + Z.of_nat i)%Z) (seq 1 (S failures))
  /\ sleepsOf (retriedTrace attemptEvent delay failures failed)
     = map (fun i => delay (failed + Z.of_nat i)%Z) (seq 1 failures).
Proof.
  intros Hatt Hsl. revert failed.
  induction failures as [|n IH]; intros failed.
  - cbn [retriedTrace seq map]. rewrite Hatt, Hsl. split; reflexivity.
  - destruct (IH (failed + 1)%Z) as [IHa IHs].
    cbn [retriedTrace].
    change (attemptEvent (failed + 1)%Z :: EvSleep (delay (failed + 1)%Z)
              :: retriedTrace attemptEvent delay n (failed + 1)%Z)
      with ([attemptEvent (failed + 1)%Z]
              ++ [EvSleep (delay (failed + 1)%Z)]
              ++ retriedTrace attemptEvent delay n (failed + 1)%Z).
    rewrite !attemptsOf_app, !sleepsOf_app, Hatt, Hsl, IHa, IHs.
    change (attemptsOf [EvSleep ?d]) with (@nil Z).
    change (sleepsOf [EvSleep ?d]) with [d].
    cbn [app].
    split.
    + change (seq 1 (S (S n))) with (1%nat :: seq 2 (S n)).
      rewrite <- (seq_shift (S n) 1). cbn [map]. rewrite map_map.
      f_equal. apply map_ext. intros i. lia.
    + change (seq 1 (S n)) with (1%nat :: seq 2 n).
      rewrite <- (seq_shift n 1). cbn [map]. rewrite map_map.
      f_equal. apply map_ext. intros i. f_equal. lia.
Qed.

Lemma sendLoop_succeeds (send : Z -> outcome string) (retries : Z)
    (err : Z -> Message) (signature : string) (failures : nat) :
  forall (attempts : Z) (lastError : option Message) (w : World),
    (attempts + Z.of_nat failures < retries)%Z ->
    (forall j, (attempts < j <= attempts + Z.of_nat failures)%Z ->
               send j = Thrown (err j)) ->
    send (attempts + Z.of_nat failures + 1)%Z = Returned signature ->
    Blockchain.sendLoop send retries attempts lastError w
    = (Returned signature,
       record (retriedTrace EvSubmit (fun k => 2 ^ k * 1000)%Z failures attempts) w).
Proof.
  induction failures as [|n IH]; intros attempts lastError w Hroom Hfail Hok;
    rewrite sendLoop_unfold.
  - assert (Hlt : (attempts <? retries)%Z = true) by (apply Z.ltb_lt; lia).
    rewrite Hlt. unfold tryCatch, bind, lift. rewrite emit_record.
    replace (attempts + Z.of_nat 0 + 1)%Z with (attempts + 1)%Z in Hok by lia.
    rewrite Hok. reflexivity.
  - assert (Hlt : (attempts <? retries)%Z = true) by (apply Z.ltb_lt; lia).
    rewrite Hlt. unfold tryCatch, bind, lift. rewrite emit_record.
    rewrite (Hfail (attempts + 1)%Z) by lia.
    assert (Hmore : (attempts + 1 <? retries)%Z = true) by (apply Z.ltb_lt; lia).
    rewrite Hmore, emit_record.
    rewrite (IH (attempts + 1)%Z (Some (err (attempts + 1)%Z)));
      [ | lia | intros j Hj; apply Hfail; lia
        | rewrite <- Hok; f_equal; lia ].
    cbn [retriedTrace]. rewrite !record_app. reflexivity.
Qed.

(** When the first [k - 1] attempts fail and attempt [k <= retries] is
    confirmed, [sendTransactionWithRetry] returns that signature after
    exactly [k] attempts, having paused [2^j * 1000] ms after each failed
    attempt [j] and not after the confirmed one. *)
Theorem sendTransactionWithRetry_succeeds (send : Z -> outcome string)
    (retries k : Z) (err : Z -> Message) (signature : string) (w : World) :
  connection w = true ->
  (1 <= k <= retries)%Z ->
  (forall j, (1 <= j < k)%Z -> send j = Thrown (err j)) ->
  send k = Returned signature ->
  let events := retriedTrace EvSubmit (fun j => 2 ^ j * 1000)%Z (Z.to_nat (k - 1)) 0 in
  Blockchain.sendTransactionWithRetry send retries w
  = (Returned signature, record events w)
  /\ attemptsOf events = map Z.of_nat (seq 1 (Z.to_nat k))
  /\ sleepsOf events
     = map (fun i => 2 ^ Z.of_nat i * 1000)%Z (seq 1 (Z.to_nat (k - 1))).
Proof.
  intros Hconn Hk Hfail Hok events. subst events.
  split.
  - unfold Blockchain.sendTransactionWithRetry, bind, get. rewrite Hconn.
    cbn [negb].
    apply (sendLoop_succeeds send retries err signature (Z.to_nat (k - 1)) 0 None w).
    + lia.
    + intros j Hj. apply Hfail. lia.
    + rewrite <- Hok. f_equal. lia.
  - destruct (retriedTrace_counts EvSubmit (fun j => 2 ^ j * 1000)%Z
                (Z.to_nat (k - 1)) 0 (fun _ => eq_refl) (fun _ => eq_refl))
      as [Ha Hs].
    rewrite Ha, Hs.
    replace (S (Z.to_nat (k - 1))) with (Z.to_nat k) by lia.
    split; reflexivity.
Qed.

Lemma sendTransactionWithRetry_succeeds_witness :
  Blockchain.sendTransactionWithRetry
    (fun j => if (j =? 3)%Z then Returned "sig"%string
              else Thrown (Text "confirmation timeout"))
    3 warmWorld
  = (Returned "sig"%string,
     record [EvSubmit 1; EvSleep 2000; EvSubmit 2; EvSleep 4000; EvSubmit 3] warmWorld).
Proof.
  refine (proj1 (sendTransactionWithRetry_succeeds
                   (fun j => if (j =? 3)%Z then Returned "sig"%string
                             else Thrown (Text "confirmation timeout"))
                   3 3 (fun _ => Text "confirmation timeout") "sig" warmWorld
                   eq_refl _ _ eq_refl)).
  - lia.
  - intros j Hj. destruct (Z.eqb_spec j 3); [lia | reflexivity].
Defined.

(** Nothing to do: without a connection [sendTransactionWithRetry] throws at
    once; with [retries <= 0] it throws a failure that carries no error, and
    [retry] throws "Operation failed after retries".  In all three cases no
    attempt is made and the world is left as it was. *)
Theorem retry_loops_no_attempt {T : Type} (send : Z -> outcome string)
    (fn : Z -> outcome T) (retries baseDelay : Z) (w : World) :
  (connection w = false ->
   Blockchain.sendTransactionWithRetry send retries w
   = (Thrown (Text "Solana connection not initialized"), w))
  /\ ((retries <= 0)%Z ->
      (connection w = true ->
       Blockchain.sendTransactionWithRetry send retries w
       = (Thrown (TransactionFailedAfter retries Undefined), w))
      /\ Helpers.retry fn retries baseDelay w
         = (Thrown (Text "Operation failed after retries"), w)).
Proof.
  split.
  - intros Hconn. unfold Blockchain.sendTransactionWithRetry, bind, get.
    rewrite Hconn. reflexivity.
  - intros Hretries.
    assert (Hge : (0 <? retries)%Z = false) by (apply Z.ltb_ge; lia).
    split.
    + intros Hconn. unfold Blockchain.sendTransactionWithRetry, bind, get.
      rewrite Hconn. cbn [negb]. rewrite sendLoop_unfold, Hge. reflexivity.
    + unfold Helpers.retry. rewrite retryLoop_unfold, Hge. reflexivity.
Qed.

Lemma retry_loops_no_attempt_witness :
  Blockchain.sendTransactionWithRetry (fun _ => Returned "sig"%string) 0 warmWorld
  = (Thrown (TransactionFailedAfter 0 Undefined), warmWorld)
  /\ Helpers.retry (fun _ => Returned "sig"%string) 0 500 warmWorld
     = (Thrown (Text "Operation failed after retries"), warmWorld).
Proof.
  destruct (proj2 (retry_loops_no_attempt (T := string)
                     (fun _ => Returned "sig"%string)
                     (fun _ => Returned "sig"%string) 0 500 warmWorld))
    as [Hsend Hretry]; [lia|].
  split; [apply Hsend; reflexivity | exact Hretry].
Defined.

(** ** The generic retry helper *)

Lemma retryLoop_succeeds {T : Type} (fn : Z -> outcome T) (retries baseDelay : Z)
    (err : Z -> Message) (result : T) (failures : nat) :
  forall (attempts : Z) (lastError : option Message) (w : World),
    (attempts + Z.of_nat failures < retries)%Z ->
    (forall j, (attempts < j <= attempts + Z.of_nat failures)%Z ->
               fn j = Thrown (err j)) ->
    fn (attempts + Z.of_nat failures + 1)%Z = Returned result ->
    Helpers.retryLoop fn retries baseDelay attempts lastError w
    = (Returned result,
       record (retriedTrace EvCall (fun k => baseDelay * 2 ^ k)%Z failures attempts) w).
Proof.
  induction failures as [|n IH]; intros attempts lastError w Hroom Hfail Hok;
    rewrite retryLoop_unfold.
  - assert (Hlt : (attempts <? retries)%Z = true) by (apply Z.ltb_lt; lia).
    rewrite Hlt. unfold tryCatch, bind, lift. rewrite emit_record.
    replace (attempts + Z.of_nat 0 + 1)%Z with (attempts + 1)%Z in Hok by lia.
    rewrite Hok. reflexivity.
  - assert (Hlt : (attempts <? retries)%Z = true) by (apply Z.ltb_lt; lia).
    rewrite Hlt. unfold tryCatch, bind, lift. rewrite emit_record.
    rewrite (Hfail (attempts + 1)%Z) by lia.
    assert (Hmore : (attempts + 1 >=? retries)%Z = false)
      by (rewrite Z.geb_leb; apply Z.leb_gt; lia).
    rewrite Hmore, emit_record.
    rewrite (IH (attempts + 1)%Z (Some (err (attempts + 1)%Z)));
      [ | lia | intros j Hj; apply Hfail; lia
        | rewrite <- Hok; f_equal; lia ].
    cbn [retriedTrace]. rewrite !record_app. reflexivity.
Qed.

(** When the first [k - 1] calls of [fn] throw and call [k <= retries]
    returns, [retry] returns that result after exactly [k] calls, having
    paused [baseDelay * 2^j] ms after each failed call [j]. *)
Theorem retry_succeeds {T : Type} (fn : Z -> outcome T)
    (retries baseDelay k : Z) (err : Z -> Message) (result : T) (w : World) :
  (1 <= k <= retries)%Z ->
  (forall j, (1 <= j < k)%Z -> fn j = Thrown (err j)) ->
  fn k = Returned result ->
  let events :=
    retriedTrace EvCall (fun j => baseDelay * 2 ^ j)%Z (Z.to_nat (k - 1)) 0 in
  Helpers.retry fn retries baseDelay w = (Returned result, record events w)
  /\ attemptsOf events = map Z.of_nat (seq 1 (Z.to_nat k))
  /\ sleepsOf events
     = map (fun i => baseDelay * 2 ^ Z.of_nat i)%Z (seq 1 (Z.to_nat (k - 1))).
Proof.
  intros Hk Hfail Hok events. subst events.
  split; [|split].
  - unfold Helpers.retry.
    apply (retryLoop_succeeds fn retries baseDelay err result (Z.to_nat (k - 1))
             0 None w).
    + lia.
    + intros j Hj. apply Hfail. lia.
    + rewrite <- Hok. f_equal. lia.
  - destruct (retriedTrace_counts EvCall (fun j => baseDelay * 2 ^ j)%Z
                (Z.to_nat (k - 1)) 0 (fun _ => eq_refl) (fun _ => eq_refl))
      as [Ha _].
    rewrite Ha. replace (S (Z.to_nat (k - 1))) with (Z.to_nat k) by lia.
    reflexivity.
  - destruct (retriedTrace_counts EvCall (fun j => baseDelay * 2 ^ j)%Z
                (Z.to_nat (k - 1)) 0 (fun _ => eq_refl) (fun _ => eq_refl))
      as [_ Hs].
    rewrite Hs. reflexivity.
Qed.

Lemma retry_succeeds_witness :
  Helpers.retry
    (fun j => if (j =? 2)%Z then Returned 7%Z else Thrown (Text "busy")) 3 500 warmWorld
  = (Returned 7%Z, record [EvCall 1; EvSleep 1000; EvCall 2] warmWorld).
Proof.
  refine (proj1 (retry_succeeds
                   (fun j => if (j =? 2)%Z then Returned 7%Z else Thrown (Text "busy"))
                   3 500 2 (fun _ => Text "busy") 7%Z warmWorld _ _ eq_refl)).
  - lia.
  - intros j Hj. destruct (Z.eqb_spec j 2); [lia | reflexivity].
Defined.

(** ** Closing and opening through the service *)

(** Without pool information or pool keys, [closePosition] and
    [createPosition] throw "Pool info not available" before anything is
    built or submitted: no query is spent and the trace records the call
    only. *)
Theorem position_calls_need_pool (env : Env) (w : World) (id : string)
    (solAmount usdcAmount lowerPrice upperPrice : R) :
  poolInfo w = None \/ poolKeys w = false ->
  RaydiumService.closePosition env id w
  = (Thrown (Text "Pool info not available"), record [EvClosePosition id] w)
  /\ RaydiumService.createPosition env solAmount usdcAmount lowerPrice upperPrice w
     = (Thrown (Text "Pool info not available"),
        record [EvCreatePosition solAmount usdcAmount lowerPrice upperPrice] w).
Proof.
  intros Hmissing.
  assert (Hguard : match poolInfo w with None => true | Some _ => false end
                   || negb (poolKeys w) = true).
  { destruct Hmissing as [H | H]; rewrite H; [reflexivity|].
    apply orb_true_r. }
  split.
  - unfold RaydiumService.closePosition, bind, get. rewrite emit_record.
    cbn [record poolInfo poolKeys]. rewrite Hguard. reflexivity.
  - unfold RaydiumService.createPosition, bind, get. rewrite emit_record.
    cbn [record poolInfo poolKeys]. rewrite Hguard. reflexivity.
Qed.

Lemma position_calls_need_pool_witness :
  RaydiumService.closePosition sampleEnv "below" coldWorld
  = (Thrown (Text "Pool info not available"),
     record [EvClosePosition "below"] coldWorld).
Proof.
  apply (position_calls_need_pool sampleEnv coldWorld "below" 0 0 0 0).
  left. reflexivity.
Defined.

(** ** Start-up of the manager *)

Ltac run_fetch Hfetch :=
  unfold RaydiumService.initialize, RaydiumService.fetchPoolInfo, tryCatch,
    bind at 1, setPoolKeys, bind at 1, query;
  cbn [record clock connection poolInfo poolKeys isInitialized trace];
  rewrite Hfetch;
  cbn [setPoolInfo throw connection poolInfo poolKeys isInitialized clock trace].

Lemma initialize_loads (env : Env) (w : World) (first : PoolInfo)
    (rest : list PoolInfo) :
  isInitialized w = false ->
  fetchMultiplePoolInfos env (clock w) = Returned (first :: rest) ->
  LiquidityManager.initialize env w
  = (Returned tt,
     record [EvLog "Initializing liquidity manager"; EvLog "Current SOL price";
             EvLog "Target price range";
             EvLog "Liquidity manager initialized successfully"]
       (mkWorld (connection w) (Some first) true true (S (clock w)) (trace w))).
Proof.
  intros Hinit Hfetch.
  unfold LiquidityManager.initialize, bind at 1, get. rewrite Hinit.
  unfold log at 1. unfold bind at 1. rewrite emit_record.
  unfold tryCatch. unfold bind at 1. run_fetch Hfetch.
  unfold bind at 1.
  erewrite getCurrentPrice_loaded by reflexivity.
  unfold bind at 1.
  erewrite getPriceRange_loaded by reflexivity.
  unfold log, setInitialized, bind, emit, record. cbn.
  rewrite <- !app_assoc. reflexivity.
Qed.

Lemma initialize_fails (env : Env) (w : World) (e : Message) :
  isInitialized w = false ->
  fetchMultiplePoolInfos env (clock w) = Thrown e
  \/ (fetchMultiplePoolInfos env (clock w) = Returned [] /\ e = Text "Pool not found") ->
  LiquidityManager.initialize env w
  = (Thrown e,
     record [EvLog "Initializing liquidity manager";
             EvLog "Failed to initialize liquidity manager"]
       (mkWorld (connection w) (poolInfo w) true false (S (clock w)) (trace w))).
Proof.
  intros Hinit [Hfetch | [Hfetch ->]];
    unfold LiquidityManager.initialize, bind at 1, get; rewrite Hinit;
    unfold log at 1; unfold bind at 1; rewrite emit_record;
    unfold tryCatch; unfold bind at 1; run_fetch Hfetch;
    unfold log, bind, emit, record, throw; cbn;
    rewrite Hinit, <- !app_assoc; reflexivity.
Qed.

(** [LiquidityManager.initialize] does nothing at all on an initialised
    manager.  On an uninitialised one it asks the node for the pool exactly
    once: when the node answers with a pool, that pool becomes the pool
    information (replacing any older one), the manager is marked
    initialised and only log lines are added to the trace. *)
Theorem initialize_once (env : Env) (w : World) :
  (isInitialized w = true -> LiquidityManager.initialize env w = (Returned tt, w))
  /\ (forall first rest,
        isInitialized w = false ->
        fetchMultiplePoolInfos env (clock w) = Returned (first :: rest) ->
        exists w',
          LiquidityManager.initialize env w = (Returned tt, w')
          /\ isInitialized w' = true
          /\ poolInfo w' = Some first
          /\ clock w' = S (clock w)
          /\ LiquidityManager.initialize env w' = (Returned tt, w')).
Proof.
  split.
  - intros Hinit. unfold LiquidityManager.initialize, bind, get.
    rewrite Hinit. reflexivity.
  - intros first rest Hinit Hfetch.
    eexists. split; [apply (initialize_loads env w first rest Hinit Hfetch)|].
    cbn [record isInitialized poolInfo clock].
    repeat split.
Qed.

Lemma initialize_once_witness :
  exists w',
    LiquidityManager.initialize sampleEnv coldWorld = (Returned tt, w')
    /\ isInitialized w' = true
    /\ poolInfo w' = Some samplePool
    /\ clock w' = 1%nat.
Proof.
  destruct (proj2 (initialize_once sampleEnv coldWorld) samplePool [] eq_refl eq_refl)
    as (w' & Hrun & Hinit & Hpool & Hclock & _).
  exists w'. auto.
Defined.

(** When the pool cannot be fetched (the node throws, or answers with no
    pool) an uninitialised manager stays uninitialised, keeps whatever pool
    information it had, and both [initialize] and [managePositions] throw
    the fetch error; the cycle itself is never entered, so nothing is
    notified, closed or opened. *)
Theorem cold_start_failure_propagates (env : Env) (w : World) (e : Message) :
  isInitialized w = false ->
  fetchMultiplePoolInfos env (clock w) = Thrown e
  \/ (fetchMultiplePoolInfos env (clock w) = Returned [] /\ e = Text "Pool not found") ->
  let w' :=
    record [EvLog "Initializing liquidity manager";
            EvLog "Failed to initialize liquidity manager"]
      (mkWorld (connection w) (poolInfo w) true false (S (clock w)) (trace w)) in
  LiquidityManager.initialize env w = (Thrown e, w')
  /\ LiquidityManager.managePositions env w = (Thrown e, w')
  /\ isInitialized w' = false
  /\ poolInfo w' = poolInfo w.
Proof.
  intros Hinit Hfetch w'.
  pose proof (initialize_fails env w e Hinit Hfetch) as Hrun.
  split; [exact Hrun|]. split; [|split; reflexivity].
  unfold LiquidityManager.managePositions, bind at 1, get, bind at 1.
  rewrite Hinit. cbn [negb]. rewrite Hrun. reflexivity.
Qed.

Lemma cold_start_failure_propagates_witness :
  LiquidityManager.managePositions offlineEnv coldWorld
  = (Thrown (Text "network down"),
     record [EvLog "Initializing liquidity manager";
             EvLog "Failed to initialize liquidity manager"]
       (mkWorld true None true false 1 [])).
Proof.
  apply (cold_start_failure_propagates offlineEnv coldWorld (Text "network down")
           eq_refl).
  left. reflexivity.
Defined.

(** ** How much the allocation can give out *)

Lemma referenceWeight_bounds (lowerPrice upperPrice currentPrice : R) :
  lowerPrice < currentPrice < upperPrice -> 0 < currentPrice ->
  0 < referenceWeight lowerPrice upperPrice currentPrice <= 1.
Proof.
  intros [Hl Hu] Hc. unfold referenceWeight.
  assert (Hlo : sqrt lowerPrice <= sqrt currentPrice) by (apply sqrt_le_1_alt; lra).
  assert (Hhi : sqrt currentPrice < sqrt upperPrice) by (apply sqrt_lt_1_alt; lra).
  assert (Hd : 0 < sqrt upperPrice - sqrt lowerPrice) by lra.
  split.
  - apply Rmult_lt_0_compat; [lra | apply Rinv_0_lt_compat, Hd].
  - apply (Rmult_le_reg_r (sqrt upperPrice - sqrt lowerPrice)); [exact Hd|].
    unfold Rdiv. rewrite Rmult_assoc, Rinv_l by lra. lra.
Qed.

Lemma splitByWeight_bounds (lowerPrice upperPrice currentPrice totalValue : R) :
  0 < currentPrice -> 0 <= totalValue ->
  let a := RaydiumService.splitByWeight currentPrice lowerPrice upperPrice totalValue in
  0 <= solAmount a <= totalValue / currentPrice /\ 0 <= usdcAmount a <= totalValue.
Proof.
  intros Hc Ht.
  assert (Hx : 0 <= totalValue / currentPrice).
  { apply Rmult_le_pos; [exact Ht|]. left. apply Rinv_0_lt_compat, Hc. }
  unfold RaydiumService.splitByWeight.
  destruct (Rleb currentPrice lowerPrice) eqn:Hle;
    [cbn [solAmount usdcAmount]; lra|].
  apply Rleb_false in Hle.
  destruct (Rgeb currentPrice upperPrice) eqn:Hge;
    [cbn [solAmount usdcAmount]; lra|].
  apply Rgeb_false in Hge.
  pose proof (referenceWeight_bounds lowerPrice upperPrice currentPrice
                (conj Hle Hge) Hc) as Hw.
  unfold referenceWeight in Hw. cbn [solAmount usdcAmount].
  set (weight := (sqrt upperPrice - sqrt currentPrice)
                 / (sqrt upperPrice - sqrt lowerPrice)) in *.
  split; split; nra.
Qed.

Lemma splitByPosition_bounds (lowerPrice upperPrice currentPrice totalValue : R) :
  0 < currentPrice -> 0 <= totalValue ->
  let a := Helpers.splitByPosition lowerPrice upperPrice currentPrice totalValue in
  0 <= solAmount a <= totalValue / currentPrice /\ 0 <= usdcAmount a <= totalValue.
Proof.
  intros Hc Ht.
  assert (Hx : 0 <= totalValue / currentPrice).
  { apply Rmult_le_pos; [exact Ht|]. left. apply Rinv_0_lt_compat, Hc. }
  unfold Helpers.splitByPosition.
  destruct (Rleb currentPrice lowerPrice) eqn:Hle;
    [cbn [solAmount usdcAmount]; lra|].
  apply Rleb_false in Hle.
  destruct (Rgeb currentPrice upperPrice) eqn:Hge;
    [cbn [solAmount usdcAmount]; lra|].
  apply Rgeb_false in Hge.
  pose proof (referenceWeight_bounds lowerPrice upperPrice currentPrice
                (conj Hle Hge) Hc) as Hw.
  assert (Hd : sqrt upperPrice - sqrt lowerPrice <> 0).
  { assert (sqrt lowerPrice <= sqrt currentPrice) by (apply sqrt_le_1_alt; lra).
    assert (sqrt currentPrice < sqrt upperPrice) by (apply sqrt_lt_1_alt; lra).
    lra. }
  assert (Hp : (sqrt currentPrice - sqrt lowerPrice)
               / (sqrt upperPrice - sqrt lowerPrice)
               = 1 - referenceWeight lowerPrice upperPrice currentPrice)
    by (unfold referenceWeight; field; exact Hd).
  cbn [solAmount usdcAmount]. rewrite Hp.
  set (weight := referenceWeight lowerPrice upperPrice currentPrice) in *.
  split; split; nra.
Qed.

(** For a non-negative lower bound, a positive price and a non-negative
    total, neither allocation
    function ever returns a negative amount, more base than the total buys
    or more quote than the total; this holds for the split of
    [getOptimalAmounts], for [calculateOptimalAmounts] before its thresholds
    and for what it finally returns. *)
Theorem allocations_within_total (lowerPrice upperPrice currentPrice totalValue : R) :
  0 <= lowerPrice -> 0 < currentPrice -> 0 <= totalValue ->
  let within (a : Amounts) :=
    0 <= solAmount a <= totalValue / currentPrice
    /\ 0 <= usdcAmount a <= totalValue in
  within (RaydiumService.splitByWeight currentPrice lowerPrice upperPrice totalValue)
  /\ within (Helpers.splitByPosition lowerPrice upperPrice currentPrice totalValue)
  /\ within (Helpers.calculateOptimalAmounts
               lowerPrice upperPrice currentPrice totalValue).
Proof.
  intros _ Hc Ht within. subst within. cbv beta.
  assert (Hx : 0 <= totalValue / currentPrice).
  { apply Rmult_le_pos; [exact Ht|]. left. apply Rinv_0_lt_compat, Hc. }
  pose proof (splitByPosition_bounds lowerPrice upperPrice currentPrice totalValue
                Hc Ht) as Hpos.
  split; [apply splitByWeight_bounds; assumption|].
  split; [exact Hpos|].
  unfold Helpers.calculateOptimalAmounts, Helpers.applyMinimumThresholds.
  cbv zeta in Hpos.
  set (a := Helpers.splitByPosition lowerPrice upperPrice currentPrice totalValue) in *.
  destruct (Rltb (solAmount a) CONSTANTS.POSITION.MIN_SOL_AMOUNT);
    cbn [solAmount usdcAmount];
    match goal with
    | |- context [Rltb ?x ?y] => destruct (Rltb x y)
    end; cbn [solAmount usdcAmount]; lra.
Qed.

Lemma allocations_within_total_witness :
  0 <= solAmount (Helpers.calculateOptimalAmounts 81 121 100 1000) <= 1000 / 100
  /\ 0 <= usdcAmount (Helpers.calculateOptimalAmounts 81 121 100 1000) <= 1000.
Proof.
  destruct (allocations_within_total 81 121 100 1000) as (_ & _ & H);
    [lra | lra | lra |].
  exact H.
Defined.

(** A non-negative total below [MIN_USDC_AMOUNT] always comes back from
    [calculateOptimalAmounts] as base only, [totalValue / currentPrice],
    whatever the range (of non-negative lower bound) and wherever the
    positive price lies in it. *)
Theorem small_total_goes_to_base (lowerPrice upperPrice currentPrice totalValue : R) :
  0 <= lowerPrice -> 0 < currentPrice ->
  0 <= totalValue < CONSTANTS.POSITION.MIN_USDC_AMOUNT ->
  Helpers.calculateOptimalAmounts lowerPrice upperPrice currentPrice totalValue
  = mkAmounts (totalValue / currentPrice) 0.
Proof.
  intros _ Hc [Ht Hsmall].
  pose proof (splitByPosition_bounds lowerPrice upperPrice currentPrice totalValue
                Hc Ht) as [_ Husdc].
  unfold Helpers.calculateOptimalAmounts, Helpers.applyMinimumThresholds.
  set (a := Helpers.splitByPosition lowerPrice upperPrice currentPrice totalValue) in *.
  destruct (Rltb (solAmount a) CONSTANTS.POSITION.MIN_SOL_AMOUNT);
    cbn [solAmount usdcAmount].
  - assert (H : Rltb totalValue CONSTANTS.POSITION.MIN_USDC_AMOUNT = true)
      by (apply Rltb_true; exact Hsmall).
    rewrite H. reflexivity.
  - assert (H : Rltb (usdcAmount a) CONSTANTS.POSITION.MIN_USDC_AMOUNT = true)
      by (apply Rltb_true; lra).
    rewrite H. reflexivity.
Qed.

Lemma small_total_goes_to_base_witness :
  Helpers.calculateOptimalAmounts 90 110 100 4 = mkAmounts (4 / 100) 0.
Proof.
  apply small_total_goes_to_base;
    [lra | lra | unfold CONSTANTS.POSITION.MIN_USDC_AMOUNT; lra].
Defined.

(** Strictly inside a range with non-negative lower bound the two
    implementations mirror each other: the value [calculateOptimalAmounts]
    puts in base (before thresholds) is what [getOptimalAmounts] puts in
    quote, and the other way round. *)
Theorem splits_mirror_inside (lowerPrice upperPrice currentPrice totalValue : R) :
  0 <= lowerPrice -> lowerPrice < currentPrice < upperPrice ->
  let service :=
    RaydiumService.splitByWeight currentPrice lowerPrice upperPrice totalValue in
  let helper :=
    Helpers.splitByPosition lowerPrice upperPrice currentPrice totalValue in
  solAmount helper * currentPrice = usdcAmount service
  /\ usdcAmount helper = solAmount service * currentPrice.
Proof.
  intros Hlow [Hl Hu] service helper. subst service helper.
  assert (Hs : sqrt lowerPrice < sqrt upperPrice) by (apply sqrt_lt_1_alt; lra).
  rewrite (splitByPosition_inside lowerPrice upperPrice currentPrice totalValue
             (conj Hl Hu) Hs).
  unfold RaydiumService.splitByWeight.
  assert (Hle : Rleb currentPrice lowerPrice = false) by (apply Rleb_false; lra).
  assert (Hge : Rgeb currentPrice upperPrice = false) by (apply Rgeb_false; lra).
  rewrite Hle, Hge. cbn [solAmount usdcAmount]. unfold referenceWeight.
  set (weight := (sqrt upperPrice - sqrt currentPrice)
                 / (sqrt upperPrice - sqrt lowerPrice)).
  split; field; lra.
Qed.

Lemma splits_mirror_inside_witness :
  solAmount (Helpers.splitByPosition 1 25 4 1000) * 4
  = usdcAmount (RaydiumService.splitByWeight 4 1 25 1000).
Proof.
  apply (splits_mirror_inside 1 25 4 1000); lra.
Defined.

(** ** The split the orchestrator asks for *)

Lemma window_weight_below_half (price ratio : R) :
  0 < price -> 0 < ratio < 1 ->
  0 < referenceWeight (price * (1 - ratio)) (price * (1 + ratio)) price < 1 / 2.
Proof.
  intros Hp [Hr0 Hr1].
  assert (Hlo : 0 < price * (1 - ratio)) by nra.
  assert (Hwin : price * (1 - ratio) < price < price * (1 + ratio)) by (split; nra).
  split; [apply (referenceWeight_bounds _ _ _ Hwin Hp)|].
  unfold referenceWeight.
  set (a := sqrt (price * (1 - ratio))).
  set (b := sqrt (price * (1 + ratio))).
  set (c := sqrt price).
  assert (Ha : 0 < a) by (apply sqrt_lt_R0; lra).
  assert (Hb : 0 < b) by (apply sqrt_lt_R0; nra).
  assert (Hc : 0 < c) by (apply sqrt_lt_R0; lra).
  assert (Ha2 : a * a = price * (1 - ratio)) by (apply sqrt_sqrt; lra).
  assert (Hb2 : b * b = price * (1 + ratio)) by (apply sqrt_sqrt; nra).
  assert (Hc2 : c * c = price) by (apply sqrt_sqrt; lra).
  assert (Hab : a < b) by (apply sqrt_lt_1_alt; lra).
  assert (Hprod : a * b < c * c).
  { assert (Hsq : (a * b) * (a * b) < (c * c) * (c * c)).
    { replace ((a * b) * (a * b)) with ((a * a) * (b * b)) by ring.
      rewrite Ha2, Hb2, Hc2. nra. }
    assert (0 < a * b) by nra. assert (0 < c * c) by nra. nra. }
  assert (Hsum : a + b < 2 * c).
  { assert (Hsq : (a + b) * (a + b) < (2 * c) * (2 * c)) by nra.
    nra. }
  apply (Rmult_lt_reg_r (b - a)); [lra|].
  unfold Rdiv. rewrite Rmult_assoc, Rinv_l by lra. lra.
Qed.

(** The range the orchestrator passes on is the window of [getPriceRange]
    around the cached price; for it (positive price, percentage strictly
    between 0 and 100, positive total) [getOptimalAmounts] always takes the
    mixed branch: both amounts are positive, the quote amount is less than
    half the total and the base amount is worth more than half of it. *)
Theorem window_split_is_mixed (env : Env) (w : World) (info : PoolInfo)
    (totalValue : R) :
  poolInfo w = Some info ->
  0 < getCurrencyAmount env (sqrtPriceX64 info) ->
  0 < priceRangePercent env < 100 ->
  0 < totalValue ->
  let price := getCurrencyAmount env (sqrtPriceX64 info) in
  exists range amounts,
    RaydiumService.getPriceRange env w = (Returned range, w)
    /\ RaydiumService.getOptimalAmounts env (lowerBound range) (upperBound range)
         totalValue w = (Returned amounts, w)
    /\ 0 < usdcAmount amounts < totalValue / 2
    /\ totalValue / 2 < solAmount amounts * price < totalValue.
Proof.
  intros Hinfo Hprice [Hr0 Hr1] Ht price.
  eexists _, _.
  split; [apply (getPriceRange_loaded env w info Hinfo)|].
  split; [apply (getOptimalAmounts_loaded env w info _ _ _ Hinfo)|].
  cbn [lowerBound upperBound]. fold price.
  assert (Hp : 0 < price) by exact Hprice. clearbody price.
  set (ratio := priceRangePercent env / 100).
  assert (Hratio : 0 < ratio < 1) by (subst ratio; lra).
  pose proof (window_weight_below_half price ratio Hp Hratio) as Hw.
  unfold RaydiumService.splitByWeight.
  assert (Hle : Rleb price (price * (1 - ratio)) = false)
    by (apply Rleb_false; nra).
  assert (Hge : Rgeb price (price * (1 + ratio)) = false)
    by (apply Rgeb_false; nra).
  rewrite Hle, Hge. cbn [solAmount usdcAmount].
  unfold referenceWeight in Hw.
  set (weight := (sqrt (price * (1 + ratio)) - sqrt price)
                 / (sqrt (price * (1 + ratio)) - sqrt (price * (1 - ratio)))) in *.
  replace (totalValue / price * (1 - weight) * price)
    with (totalValue * (1 - weight)) by (field; lra).
  split; split; nra.
Qed.

Lemma window_split_is_mixed_witness :
  exists range amounts,
    RaydiumService.getPriceRange sampleEnv warmWorld = (Returned range, warmWorld)
    /\ RaydiumService.getOptimalAmounts sampleEnv (lowerBound range) (upperBound range)
         1000 warmWorld = (Returned amounts, warmWorld)
    /\ 0 < usdcAmount amounts < 1000 / 2.
Proof.
  destruct (window_split_is_mixed sampleEnv warmWorld samplePool 1000 eq_refl)
    as (range & amounts & Hrange & Hsplit & Husdc & _);
    [cbn; lra | cbn; lra | lra |].
  exists range, amounts. auto.
Defined.

(** ** Never more than is held *)

Lemma openIfFunded_funded (env : Env) (w : World) (info : PoolInfo)
    (currentPrice lowerBound upperBound : R) (balances : Balances) :
  getTokenBalances env (clock w) = Returned balances ->
  poolInfo w = Some info ->
  LiquidityManager.minSolForPosition <= sol balances - minSolBalance env ->
  LiquidityManager.minUsdcForPosition <= usdc balances ->
  let availableSol := sol balances - minSolBalance env in
  let amounts :=
    RaydiumService.splitByWeight (getCurrencyAmount env (sqrtPriceX64 info))
      lowerBound upperBound
      ((availableSol * currentPrice + usdc balances) * (98 / 100)) in
  exists events w',
    LiquidityManager.openIfFunded env currentPrice lowerBound upperBound w
    = (Returned tt, w')
    /\ extends events w w'
    /\ createCalls events
       = [(Rmin (solAmount amounts) availableSol,
           Rmin (usdcAmount amounts) (usdc balances),
           lowerBound, upperBound)].
Proof.
  intros Hbal Hinfo Hsol Husdc availableSol amounts.
  destruct (query_runs (getTokenBalances env) w) as (w1 & Hq & Hext1 & _).
  rewrite Hbal in Hq.
  unfold LiquidityManager.openIfFunded, bind at 1. rewrite Hq.
  fold availableSol.
  assert (Hcond : Rgeb availableSol LiquidityManager.minSolForPosition
                  && Rgeb (usdc balances) LiquidityManager.minUsdcForPosition
                  = true).
  { apply andb_true_iff. split; apply Rgeb_true; [exact Hsol | exact Husdc]. }
  rewrite Hcond. unfold log. unfold bind at 1. rewrite emit_record.
  unfold bind at 1.
  set (w2 := record [EvLog "Creating new position with available funds"] w1).
  assert (Hext2 : extends [EvLog "Creating new position with available funds"] w w2)
    by apply (extends_trans _ _ _ _ _ Hext1 (extends_record _ w1)).
  assert (Hinfo2 : poolInfo w2 = Some info)
    by (rewrite <- Hinfo; apply (extends_poolInfo _ _ _ Hext2)).
  rewrite (getOptimalAmounts_loaded env w2 info _ _ _ Hinfo2).
  fold amounts.
  set (finalSolAmount := Rmin (solAmount amounts) availableSol).
  set (finalUsdcAmount := Rmin (usdcAmount amounts) (usdc balances)).
  unfold tryCatch, bind at 1.
  destruct (createPosition_runs env finalSolAmount finalUsdcAmount
              lowerBound upperBound w2)
    as (r & sub & w3 & Hrun & Hext3 & Hretry).
  rewrite Hrun.
  pose proof (extends_trans _ _ _ _ _ Hext2 Hext3) as Hext.
  destruct (retryOnly_silent sub Hretry) as (_ & Hsilent & _).
  assert (Hcalls : forall front tail,
             createCalls front = [] -> createCalls tail = [] ->
             createCalls ((front
                           ++ EvCreatePosition finalSolAmount finalUsdcAmount
                                lowerBound upperBound :: sub) ++ tail)
             = [(finalSolAmount, finalUsdcAmount, lowerBound, upperBound)]).
  { intros front tail Hfront Htail. rewrite !createCalls_app.
    change (createCalls (EvCreatePosition ?a ?b ?c ?d :: ?l))
      with ((a, b, c, d) :: createCalls l).
    rewrite Hfront, Hsilent, Htail. reflexivity. }
  destruct r as [signature | error].
  - unfold notify. unfold bind at 1. rewrite emit_record.
    unfold bind at 1. rewrite emit_record, record_app.
    unfold bind at 1.
    match goal with
    | |- context [query ?ask ?w4] =>
        destruct (query_runs ask w4) as (w5 & Hq5 & Hext5 & _); rewrite Hq5
    end.
    match goal with
    | |- context [match getTokenBalances env ?c with _ => _ end] =>
        destruct (getTokenBalances env c) as [newBalances | error]
    end;
      unfold bind; rewrite !emit_record, !record_app;
      (eexists _, _; split; [reflexivity|];
       split;
       [ eapply extends_trans; [|apply extends_record];
         eapply extends_trans; [|exact Hext5];
         eapply extends_trans; [exact Hext | apply extends_record]
       | rewrite !app_nil_r, <- !app_assoc, app_assoc; apply Hcalls; reflexivity ]).
  - unfold notify, bind. rewrite !emit_record, !record_app.
    eexists _, _. split; [reflexivity|].
    split; [eapply extends_trans; [exact Hext | apply extends_record]|].
    apply Hcalls; reflexivity.
Qed.

(** When both minimums are met (pool information loaded, positive cached
    price passed as current price, non-negative lower bound) the one
    [createPosition] call of the reallocation step asks for non-negative
    amounts, never more SOL than the balance less the reserve, never more
    USDC than the balance, and together worth at most 98% of the deployable
    value. *)
Theorem openIfFunded_never_overspends (env : Env) (w : World) (info : PoolInfo)
    (lowerBound upperBound : R) (balances : Balances) :
  getTokenBalances env (clock w) = Returned balances ->
  poolInfo w = Some info ->
  0 < getCurrencyAmount env (sqrtPriceX64 info) ->
  0 <= lowerBound ->
  LiquidityManager.minSolForPosition <= sol balances - minSolBalance env ->
  LiquidityManager.minUsdcForPosition <= usdc balances ->
  let price := getCurrencyAmount env (sqrtPriceX64 info) in
  let availableSol := sol balances - minSolBalance env in
  exists solAmount usdcAmount events w',
    LiquidityManager.openIfFunded env price lowerBound upperBound w = (Returned tt, w')
    /\ extends events w w'
    /\ createCalls events = [(solAmount, usdcAmount, lowerBound, upperBound)]
    /\ 0 <= solAmount <= availableSol
    /\ 0 <= usdcAmount <= usdc balances
    /\ solAmount * price + usdcAmount
       <= (availableSol * price + usdc balances) * (98 / 100).
Proof.
  intros Hbal Hinfo Hprice Hlow Hsol Husdc price availableSol.
  destruct (openIfFunded_funded env w info price lowerBound upperBound balances
              Hbal Hinfo Hsol Husdc)
    as (events & w' & Hrun & Hext & Hcalls).
  fold price availableSol in Hcalls.
  set (total := (availableSol * price + usdc balances) * (98 / 100)) in *.
  set (amounts := RaydiumService.splitByWeight price lowerBound upperBound total) in *.
  exists (Rmin (solAmount amounts) availableSol),
         (Rmin (usdcAmount amounts) (usdc balances)), events, w'.
  split; [exact Hrun|]. split; [exact Hext|]. split; [exact Hcalls|].
  unfold LiquidityManager.minSolForPosition, LiquidityManager.minUsdcForPosition in *.
  assert (Hp : 0 < price) by exact Hprice.
  assert (Havail : 0 < availableSol) by (subst availableSol; lra).
  assert (Htotal : 0 <= total) by (subst total; nra).
  destruct (splitByWeight_bounds lowerBound upperBound price total Hp Htotal)
    as [[Hs0 _] [Hu0 _]].
  fold amounts in Hs0, Hu0.
  pose proof (splitByWeight_value lowerBound upperBound price total) as Hvalue.
  unfold valueAt in Hvalue. fold amounts in Hvalue.
  assert (Hv : solAmount amounts * price + usdcAmount amounts = total)
    by (apply Hvalue; lra).
  pose proof (Rmin_l (solAmount amounts) availableSol).
  pose proof (Rmin_r (solAmount amounts) availableSol).
  pose proof (Rmin_l (usdcAmount amounts) (usdc balances)).
  pose proof (Rmin_r (usdcAmount amounts) (usdc balances)).
  assert (0 <= Rmin (solAmount amounts) availableSol)
    by (apply Rmin_glb; lra).
  assert (0 <= Rmin (usdcAmount amounts) (usdc balances))
    by (apply Rmin_glb; lra).
  repeat split; try lra. nra.
Qed.

Lemma openIfFunded_never_overspends_witness :
  exists solAmount usdcAmount events w',
    LiquidityManager.openIfFunded sampleEnv 100 95 105 warmWorld = (Returned tt, w')
    /\ createCalls events = [(solAmount, usdcAmount, 95, 105)]
    /\ 0 <= solAmount <= 1 - 5 / 100
    /\ 0 <= usdcAmount <= 100.
Proof.
  destruct (openIfFunded_never_overspends sampleEnv warmWorld samplePool 95 105
              (mkBalances 1 100) eq_refl eq_refl)
    as (s & u & events & w' & Hrun & _ & Hcalls & Hs & Hu & _).
  - cbn. lra.
  - lra.
  - unfold LiquidityManager.minSolForPosition. cbn. lra.
  - unfold LiquidityManager.minUsdcForPosition. cbn. lra.
  - exists s, u, events, w'. auto.
Defined.

(** ** Whole cycles *)

Lemma managePositions_runs (env : Env) (w : World) (info : PoolInfo) :
  isInitialized w = true ->
  poolInfo w = Some info ->
  exists events w',
    LiquidityManager.managePositions env w = (Returned tt, w')
    /\ extends events w w'.
Proof.
  intros Hinit Hinfo.
  destruct (getTokenBalances env (clock w)) as [balances | e] eqn:Hbal.
  - destruct (managePositions_close_calls env w info balances Hinit Hinfo Hbal)
      as (events & w' & Hrun & Hext & _).
    exists events, w'. auto.
  - unfold LiquidityManager.managePositions, bind at 1, get, bind at 1.
    rewrite Hinit. cbn [negb]. unfold ret at 1. unfold tryCatch.
    unfold log at 1. unfold bind at 1. rewrite emit_record.
    set (w1 := record [EvLog "Starting position management cycle"] w).
    assert (Hinfo1 : poolInfo w1 = Some info) by exact Hinfo.
    unfold bind at 1. rewrite (getCurrentPrice_loaded env w1 info Hinfo1).
    unfold bind at 1. rewrite (getPriceRange_loaded env w1 info Hinfo1).
    cbn [lowerBound upperBound].
    unfold notify at 1. unfold bind at 1. rewrite emit_record.
    unfold bind at 1.
    match goal with
    | |- context [query (getTokenBalances env) ?w2] =>
        destruct (query_runs (getTokenBalances env) w2) as (w3 & Hq & Hext3 & _);
        rewrite Hq;
        pose proof (extends_trans _ _ _ _ _
                      (extends_trans _ _ _ _ _ (extends_record _ w)
                                     (extends_record _ w1)) Hext3) as H03
    end.
    match goal with
    | |- context [match getTokenBalances env ?c with _ => _ end] =>
        change c with (clock w)
    end.
    rewrite Hbal.
    unfold log, notify, bind. rewrite !emit_record, !record_app.
    eexists _, _. split; [reflexivity|].
    exact (extends_trans _ _ _ _ _ H03 (extends_record _ w3)).
Qed.

(** A cycle of an initialised manager with pool information loaded returns
    normally and never refreshes that information: after the cycle the
    manager is still initialised, the pool information is the one it
    started with, and [getCurrentPrice] still answers the price cached at
    start-up without asking the node. *)
Theorem cycle_keeps_cached_price (env : Env) (w : World) (info : PoolInfo) :
  isInitialized w = true ->
  poolInfo w = Some info ->
  exists w',
    LiquidityManager.managePositions env w = (Returned tt, w')
    /\ isInitialized w' = true
    /\ poolInfo w' = Some info
    /\ RaydiumService.getCurrentPrice env w'
       = (Returned (getCurrencyAmount env (sqrtPriceX64 info)), w').
Proof.
  intros Hinit Hinfo.
  destruct (managePositions_runs env w info Hinit Hinfo)
    as (events & w' & Hrun & (_ & Hpool & _ & Hflag & _)).
  exists w'. split; [exact Hrun|].
  assert (Hinfo' : poolInfo w' = Some info) by (rewrite Hpool; exact Hinfo).
  split; [rewrite Hflag; exact Hinit|]. split; [exact Hinfo'|].
  apply getCurrentPrice_loaded, Hinfo'.
Qed.

Lemma cycle_keeps_cached_price_witness :
  exists w',
    LiquidityManager.managePositions offlineEnv warmWorld = (Returned tt, w')
    /\ poolInfo w' = Some samplePool.
Proof.
  destruct (cycle_keeps_cached_price offlineEnv warmWorld samplePool eq_refl eq_refl)
    as (w' & Hrun & _ & Hpool & _).
  exists w'. auto.
Defined.

Lemma managePositions_returns_witness :
  fst (LiquidityManager.managePositions offlineEnv warmWorld) = Returned tt.
Proof. apply managePositions_returns. reflexivity. Defined.

(** The scheduled callback never throws, initialised or not: when
    [managePositions] throws (a failed start-up), the error is logged and
    notified as "Scheduled position management failed". *)
Theorem scheduledCheck_never_throws (env : Env) (w : World) :
  fst (Main.scheduledCheck env w) = Returned tt
  /\ (forall e w1,
        LiquidityManager.managePositions env
          (record [EvLog "Running scheduled position check and management..."] w)
        = (Thrown e, w1) ->
        Main.scheduledCheck env w
        = (Returned tt,
           record [EvLog "Error during scheduled position management:";
                   EvNotify (ErrorNote "Scheduled position management failed" None e)]
                  w1)).
Proof.
  split.
  - unfold Main.scheduledCheck, tryCatch, log at 1, bind at 1.
    rewrite emit_record.
    destruct (LiquidityManager.managePositions env _) as [[[]|e] w1]; reflexivity.
  - intros e w1 Hrun.
    unfold Main.scheduledCheck, tryCatch, log at 1, bind at 1.
    rewrite emit_record, Hrun.
    unfold log, notify, bind. rewrite !emit_record, record_app. reflexivity.
Qed.

Lemma scheduledCheck_never_throws_witness :
  Main.scheduledCheck offlineEnv coldWorld
  = (Returned tt,
     record [EvLog "Error during scheduled position management:";
             EvNotify (ErrorNote "Scheduled position management failed" None
                                 (Text "network down"))]
       (record [EvLog "Running scheduled position check and management...";
                EvLog "Initializing liquidity manager";
                EvLog "Failed to initialize liquidity manager"]
          (mkWorld true None true false 1 []))).
Proof.
  apply (proj2 (scheduledCheck_never_throws offlineEnv coldWorld)).
  reflexivity.
Defined.

(** ** What one close or open may cost *)

Lemma sendTransactionWithRetry_counted (send : Z -> outcome string) (retries : Z)
    (w : World) :
  exists r events w',
    Blockchain.sendTransactionWithRetry send retries w = (r, w')
    /\ extends events w w' /\ clock w' = clock w /\ retryOnly events
    /\ (List.length (attemptsOf events) <= Z.to_nat retries)%nat.
Proof.
  unfold Blockchain.sendTransactionWithRetry, bind, get.
  destruct (connection w); cbn [negb].
  - destruct (sendLoop_counts send retries (Z.to_nat retries) 0 None w)
      as (r & events & Hrun & Hretry & Hle & _); [f_equal; lia|].
    exists r, events, (record events w).
    split; [exact Hrun|]. split; [apply extends_record|]. auto.
  - eexists _, [], w. split; [reflexivity|].
    split; [apply extends_refl|]. split; [reflexivity|].
    split; [constructor | cbn; lia].
Qed.

(** Whatever the SDK and the chain answer, one [closePosition] or
    [createPosition] call records itself, asks the SDK at most once, and
    submits at most [maxRetryAttempts] times; nothing but retry events
    follows the call in the trace. *)
Theorem position_calls_bounded (env : Env) (w : World) (id : string)
    (solAmount usdcAmount lowerPrice upperPrice : R) :
  (exists r events w',
     RaydiumService.closePosition env id w = (r, w')
     /\ extends (EvClosePosition id :: events) w w'
     /\ retryOnly events
     /\ (List.length (attemptsOf events) <= Z.to_nat (maxRetryAttempts env))%nat
     /\ (clock w' <= S (clock w))%nat)
  /\ (exists r events w',
        RaydiumService.createPosition env solAmount usdcAmount lowerPrice upperPrice w
        = (r, w')
        /\ extends (EvCreatePosition solAmount usdcAmount lowerPrice upperPrice
                      :: events) w w'
        /\ retryOnly events
        /\ (List.length (attemptsOf events) <= Z.to_nat (maxRetryAttempts env))%nat
        /\ (clock w' <= S (clock w))%nat).
Proof.
  split.
  - unfold RaydiumService.closePosition, bind, get. rewrite emit_record.
    cbn [record poolInfo poolKeys].
    destruct (_ || _).
    + eexists _, [], _. split; [reflexivity|].
      split; [apply (extends_record [EvClosePosition id])|].
      split; [constructor|]. cbn. split; lia.
    + unfold tryCatch, bind.
      destruct (query_runs (fun c => makeClosePositionInstructionSimple env c id)
                           (record [EvClosePosition id] w))
        as (w1 & Hq & Hext1 & Hclock1).
      rewrite Hq.
      pose proof (extends_trans _ _ _ _ _
                    (extends_record [EvClosePosition id] w) Hext1) as Hext.
      cbn [record clock] in Hclock1.
      destruct (makeClosePositionInstructionSimple env _ id) as [transaction | error].
      * destruct (sendTransactionWithRetry_counted
                    (sendAndConfirmTransaction env transaction)
                    (maxRetryAttempts env) w1)
          as (r & events & w2 & Hrun & Hext2 & Hclock2 & Hretry & Hle).
        rewrite Hrun. exists r, events, w2.
        split; [destruct r; reflexivity|].
        split; [apply (extends_trans _ _ _ _ _ Hext Hext2)|].
        split; [exact Hretry|]. split; [exact Hle | lia].
      * eexists _, [], w1. split; [reflexivity|].
        split; [exact Hext|]. split; [constructor|]. cbn. split; lia.
  - unfold RaydiumService.createPosition, bind at 1, bind at 1, get.
    rewrite emit_record. cbn [record poolInfo poolKeys].
    set (w0 := record [EvCreatePosition solAmount usdcAmount lowerPrice upperPrice] w).
    pose proof (extends_record
                  [EvCreatePosition solAmount usdcAmount lowerPrice upperPrice] w)
      as Hext0. fold w0 in Hext0.
    assert (Hclock0 : clock w0 = clock w) by reflexivity.
    destruct (poolInfo w) as [info|] eqn:Hinfo; cbn [orb].
    2: { eexists _, [], _. split; [reflexivity|]. split; [exact Hext0|].
         split; [constructor|]. cbn [attemptsOf flat_map List.length]. split; lia. }
    destruct (poolKeys w); cbn [negb].
    2: { eexists _, [], _. split; [reflexivity|]. split; [exact Hext0|].
         split; [constructor|]. cbn [attemptsOf flat_map List.length]. split; lia. }
    unfold tryCatch, bind, RaydiumService.calculateTickIndexes, get, bind.
    assert (Hinfo0 : poolInfo w0 = Some info) by exact Hinfo.
    rewrite Hinfo0. unfold ret at 1.
    match goal with
    | |- context [query ?ask w0] =>
        destruct (query_runs ask w0) as (w1 & Hq & Hext1 & Hclock1); rewrite Hq
    end.
    pose proof (extends_trans _ _ _ _ _ Hext0 Hext1) as Hext.
    match goal with
    | |- context [match makeOpenPositionInstructionSimple ?e ?c ?a ?b ?x ?y with _ => _ end] =>
        destruct (makeOpenPositionInstructionSimple e c a b x y)
          as [transaction | error]
    end.
    + destruct (sendTransactionWithRetry_counted
                  (sendAndConfirmTransaction env transaction)
                  (maxRetryAttempts env) w1)
        as (r & events & w2 & Hrun & Hext2 & Hclock2 & Hretry & Hle).
      rewrite Hrun. exists r, events, w2.
      split; [destruct r; reflexivity|].
      split; [apply (extends_trans _ _ _ _ _ Hext Hext2)|].
      split; [exact Hretry|]. split; [exact Hle | lia].
    + eexists _, [], w1. split; [reflexivity|].
      split; [exact Hext|]. split; [constructor|].
      cbn [attemptsOf flat_map List.length]. split; lia.
Qed.

(** ** The connection *)

(** [initializeConnection] keeps an existing connection without testing
    it.  Without one it assigns the connection before the test query: when
    that query fails the call throws "Failed to connect to Solana network:
    ..." and yet leaves the connection set, so that the next call returns
    normally without any test. *)
Theorem initializeConnection_sets_before_test
    (getLatestBlockhash : nat -> outcome string) (w : World) :
  (connection w = true ->
   Connection.initializeConnection getLatestBlockhash w = (Returned tt, w))
  /\ (forall e,
        connection w = false ->
        getLatestBlockhash (clock w) = Thrown e ->
        exists w',
          Connection.initializeConnection getLatestBlockhash w
          = (Thrown (Text ("Failed to connect to Solana network: "
                           ++ messageText e)%string), w')
          /\ connection w' = true
          /\ forall again,
               Connection.initializeConnection again w' = (Returned tt, w')).
Proof.
  split.
  - intros Hconn. unfold Connection.initializeConnection, bind, get.
    rewrite Hconn. reflexivity.
  - intros e Hconn Hfail.
    unfold Connection.initializeConnection, bind at 1, get. rewrite Hconn.
    unfold bind at 1, Connection.setConnection, tryCatch, bind at 1, query.
    cbn [clock]. rewrite Hfail.
    unfold log, bind, throw. rewrite emit_record.
    eexists. split; [reflexivity|].
    split; [reflexivity|].
    intros again. reflexivity.
Qed.

Lemma initializeConnection_sets_before_test_witness :
  exists w',
    Connection.initializeConnection (fun _ => Thrown (Text "fetch failed"))
      (mkWorld false None false false 0 [])
    = (Thrown (Text "Failed to connect to Solana network: fetch failed"), w')
    /\ connection w' = true.
Proof.
  destruct (proj2 (initializeConnection_sets_before_test
                     (fun _ => Thrown (Text "fetch failed"))
                     (mkWorld false None false false 0 []))
                  (Text "fetch failed") eq_refl eq_refl)
    as (w' & Hrun & Hconn & _).
  exists w'. split; [exact Hrun | exact Hconn].
Defined.

(** ** Strings *)

Lemma length_append (a b : string) :
  String.length (a ++ b) = (String.length a + String.length b)%nat.
Proof. induction a as [|c a IH]; cbn; [reflexivity | rewrite IH; reflexivity]. Qed.

Lemma length_substring (s : string) :
  forall n m, (n + m <= String.length s)%nat ->
              String.length (substring n m s) = m.
Proof.
  induction s as [|c s IH]; intros n m H; cbn in H.
  - destruct n, m; cbn; lia.
  - destruct n as [|n].
    + destruct m as [|m]; cbn; [reflexivity|]. rewrite (IH 0%nat m) by lia. reflexivity.
    + cbn. apply IH. lia.
Qed.

Lemma length_substring_le (s : string) :
  forall n m, (String.length (substring n m s) <= m)%nat.
Proof.
  induction s as [|c s IH]; intros n m.
  - destruct n, m; cbn; lia.
  - destruct n as [|n].
    + destruct m as [|m]; cbn; [lia|]. specialize (IH 0%nat m). lia.
    + cbn. apply IH.
Qed.

Lemma substring_all (s : string) :
  forall m, (String.length s <= m)%nat -> substring 0 m s = s.
Proof.
  induction s as [|c s IH]; intros m H; cbn in H.
  - destruct m; reflexivity.
  - destruct m as [|m]; [lia|]. cbn. rewrite IH by lia. reflexivity.
Qed.

Lemma append_inj_l (a b c : string) : (a ++ b = a ++ c)%string -> b = c.
Proof.
  induction a as [|x a IH]; cbn; intros H; [exact H|].
  injection H as H. apply IH, H.
Qed.

(** ** Shortened keys *)

Lemma slice_prefix (s : string) (n : Z) :
  (0 <= n <= Z.of_nat (String.length s))%Z ->
  Display.slice s 0 (Some n) = substring 0 (Z.to_nat n) s.
Proof.
  intros Hn. unfold Display.slice, Display.sliceIndex.
  assert (H0 : (0 <? 0)%Z = false) by reflexivity.
  assert (H1 : (n <? 0)%Z = false) by (apply Z.ltb_ge; lia).
  rewrite H0, H1, Z.min_l, Z.min_l by lia.
  destruct (Z.leb_spec n 0) as [Hzero | Hpos].
  - assert (n = 0%Z) by lia. subst n. destruct s; reflexivity.
  - rewrite Z.sub_0_r. reflexivity.
Qed.

Lemma slice_suffix (s : string) (n : Z) :
  (0 < n <= Z.of_nat (String.length s))%Z ->
  Display.slice s (- n) None
  = substring (String.length s - Z.to_nat n) (Z.to_nat n) s.
Proof.
  intros Hn. unfold Display.slice, Display.sliceIndex.
  assert (H1 : (- n <? 0)%Z = true) by (apply Z.ltb_lt; lia).
  rewrite H1, Z.max_l by lia.
  assert (H2 : (Z.of_nat (String.length s)
                <=? Z.of_nat (String.length s) + - n)%Z = false)
    by (apply Z.leb_gt; lia).
  rewrite H2. f_equal; lia.
Qed.

Lemma slice_from_start (s : string) : Display.slice s 0 None = s.
Proof.
  unfold Display.slice, Display.sliceIndex.
  assert (H0 : (0 <? 0)%Z = false) by reflexivity.
  rewrite H0, Z.min_l by lia.
  destruct (Z.leb_spec (Z.of_nat (String.length s)) 0) as [Hzero | Hpos].
  - destruct s; [reflexivity | cbn in Hzero; lia].
  - rewrite Z.sub_0_r, Nat2Z.id. cbn [Z.to_nat].
    apply substring_all. lia.
Qed.

(** [truncatePublicKey] returns a key no longer than [startChars +
    endChars] as it is.  A longer key (with [0 <= startChars] and
    [0 < endChars]) becomes its first [startChars] characters, three dots
    and its last [endChars] characters, [startChars + 3 + endChars]
    characters in all.  With [endChars = 0] the part after the dots is the
    whole key ([slice(-0)] is [slice(0)]), so the result is longer than the
    key. *)
Theorem truncatePublicKey_shape (pkStr : string) (startChars endChars : Z) :
  ((Z.of_nat (String.length pkStr) <= startChars + endChars)%Z ->
   Display.truncatePublicKey pkStr startChars endChars = pkStr)
  /\ ((0 <= startChars)%Z -> (0 < endChars)%Z ->
      (startChars + endChars < Z.of_nat (String.length pkStr))%Z ->
      Display.truncatePublicKey pkStr startChars endChars
      = (substring 0 (Z.to_nat startChars) pkStr ++ "..."
         ++ substring (String.length pkStr - Z.to_nat endChars)
              (Z.to_nat endChars) pkStr)%string
      /\ Z.of_nat (String.length
                     (Display.truncatePublicKey pkStr startChars endChars))
         = (startChars + 3 + endChars)%Z)
  /\ ((0 <= startChars < Z.of_nat (String.length pkStr))%Z ->
      Display.truncatePublicKey pkStr startChars 0
      = (substring 0 (Z.to_nat startChars) pkStr ++ "..." ++ pkStr)%string).
Proof.
  split; [|split].
  - intros Hshort. unfold Display.truncatePublicKey.
    assert (H : (Z.of_nat (String.length pkStr) <=? startChars + endChars)%Z = true)
      by (apply Z.leb_le; exact Hshort).
    rewrite H. reflexivity.
  - intros Hs He Hlong.
    assert (Heq : Display.truncatePublicKey pkStr startChars endChars
                  = (substring 0 (Z.to_nat startChars) pkStr ++ "..."
                     ++ substring (String.length pkStr - Z.to_nat endChars)
                          (Z.to_nat endChars) pkStr)%string).
    { unfold Display.truncatePublicKey.
      assert (H : (Z.of_nat (String.length pkStr) <=? startChars + endChars)%Z = false)
        by (apply Z.leb_gt; exact Hlong).
      rewrite H, slice_prefix, slice_suffix by lia. reflexivity. }
    split; [exact Heq|].
    rewrite Heq, !length_append, !length_substring by lia.
    cbn [String.length]. lia.
  - intros [Hs Hlong].
    unfold Display.truncatePublicKey.
    assert (H : (Z.of_nat (String.length pkStr) <=? startChars + 0)%Z = false)
      by (apply Z.leb_gt; lia).
    rewrite H, slice_prefix by lia. cbn [Z.opp].
    rewrite slice_from_start. reflexivity.
Qed.

Lemma truncatePublicKey_shape_witness :
  Display.truncatePublicKey "So11111111111111111111111111111111111111112" 4 4
  = "So11...1112"%string
  /\ Display.truncatePublicKey "So11111111111111111111111111111111111111112" 4 0
     = "So11...So11111111111111111111111111111111111111112"%string.
Proof.
  destruct (truncatePublicKey_shape
              "So11111111111111111111111111111111111111112" 4 4)
    as (_ & Hcut & _).
  destruct (truncatePublicKey_shape
              "So11111111111111111111111111111111111111112" 4 0)
    as (_ & _ & Hzero).
  split.
  - apply Hcut; cbn; lia.
  - apply Hzero. cbn. lia.
Defined.

Lemma append_assoc (a b c : string) : ((a ++ b) ++ c = a ++ (b ++ c))%string.
Proof. induction a as [|x a IH]; cbn; [reflexivity | rewrite IH; reflexivity]. Qed.

(** ** Explorer links *)

(** For a given network the two explorer helpers are injective, and a
    transaction link is never an address link.  Off mainnet the path is
    appended after the query string, so that the [cluster] parameter reads
    [<network>/tx/<signature>]. *)
Theorem explorer_links_distinct (network a b : string) :
  (Display.getExplorerUrl network a = Display.getExplorerUrl network b -> a = b)
  /\ (Display.getAddressExplorerUrl network a
      = Display.getAddressExplorerUrl network b -> a = b)
  /\ Display.getExplorerUrl network a <> Display.getAddressExplorerUrl network b
  /\ (network <> "mainnet-beta"%string ->
      Display.getExplorerUrl network a
      = ("https://explorer.solana.com?cluster="
         ++ (network ++ "/tx/" ++ a))%string).
Proof.
  unfold Display.getExplorerUrl, Display.getAddressExplorerUrl.
  split; [|split; [|split]].
  - intros H. apply append_inj_l in H. apply (append_inj_l "/tx/") in H. exact H.
  - intros H. apply append_inj_l in H. apply (append_inj_l "/address/") in H. exact H.
  - intros H. apply append_inj_l in H. discriminate H.
  - intros Hnet. unfold Display.explorerBaseUrl.
    destruct (String.eqb_spec network "mainnet-beta") as [Heq | _];
      [contradiction|].
    apply append_assoc.
Qed.

Lemma explorer_links_distinct_witness :
  Display.getExplorerUrl "devnet" "5sig"
  = "https://explorer.solana.com?cluster=devnet/tx/5sig"%string
  /\ ("5sig" = "5sig")%string.
Proof.
  destruct (explorer_links_distinct "devnet" "5sig" "5sig")
    as (Hinj & _ & _ & Hpath).
  split.
  - apply Hpath. discriminate.
  - apply Hinj. reflexivity.
Defined.

(** ** Required configuration *)

Lemma filter_nil_iff {A : Type} (f : A -> bool) (l : list A) :
  filter f l = [] <-> forall x, In x l -> f x = false.
Proof.
  induction l as [|y l IH]; cbn.
  - split; [intros _ x [] | reflexivity].
  - destruct (f y) eqn:Hy.
    + split; [discriminate|]. intros H. specialize (H y (or_introl eq_refl)).
      congruence.
    + rewrite IH. split.
      * intros H x [<- | Hin]; [exact Hy | apply H, Hin].
      * intros H x Hin. apply H. right. exact Hin.
Qed.

(** [validateEnvironmentVariables] returns normally exactly when every
    listed variable is set to a non-empty string; otherwise it throws, and
    a variable set to the empty string counts as missing. *)
Theorem validateEnvironmentVariables_accepts
    (processEnv : string -> option string) (variables : list string) :
  (Config.validateEnvironmentVariables processEnv variables = Returned tt
   <-> forall variable, In variable variables ->
         exists value, processEnv variable = Some value /\ value <> ""%string)
  /\ (forall variable,
        In variable variables -> processEnv variable = Some ""%string ->
        exists message,
          Config.validateEnvironmentVariables processEnv variables
          = Thrown (Text message)).
Proof.
  assert (Hunset : forall variable,
             Config.unset processEnv variable = false
             <-> exists value, processEnv variable = Some value
                               /\ value <> ""%string).
  { intros variable. unfold Config.unset.
    destruct (processEnv variable) as [value|].
    - destruct (String.eqb_spec value "") as [Heq | Hne].
      + split; [discriminate|]. intros (v & Hv & Hne). congruence.
      + split; [|reflexivity]. intros _. exists value. auto.
    - split; [discriminate|]. intros (v & Hv & _). discriminate. }
  assert (Hrun : Config.validateEnvironmentVariables processEnv variables = Returned tt
                 <-> filter (Config.unset processEnv) variables = []).
  { unfold Config.validateEnvironmentVariables.
    destruct (filter (Config.unset processEnv) variables) as [|x missing]; cbn.
    - split; reflexivity.
    - split; discriminate. }
  split.
  - rewrite Hrun, filter_nil_iff. split.
    + intros H variable Hin. apply Hunset, H, Hin.
    + intros H variable Hin. apply Hunset, H, Hin.
  - intros variable Hin Hempty.
    unfold Config.validateEnvironmentVariables.
    destruct (filter (Config.unset processEnv) variables) as [|x missing] eqn:Hf.
    + pose proof (proj1 (filter_nil_iff _ _) Hf variable Hin) as H.
      unfold Config.unset in H. rewrite Hempty in H. discriminate H.
    + cbn. eexists. reflexivity.
Qed.

Lemma validateEnvironmentVariables_accepts_witness :
  exists message,
    Config.validateEnvironmentVariables
      (fun variable => if String.eqb variable "POOL_ID" then Some "" else Some "x")%string
      ["NETWORK"; "POOL_ID"]%string
    = Thrown (Text message).
Proof.
  apply (proj2 (validateEnvironmentVariables_accepts
                  (fun variable => if String.eqb variable "POOL_ID"
                                   then Some "" else Some "x")%string
                  ["NETWORK"; "POOL_ID"]%string)
               "POOL_ID"%string (or_intror (or_introl eq_refl)) eq_refl).
Defined.

(** ** Notifications *)

(** The error embed has one or two fields, none longer than the 1024
    characters Discord accepts; a message within the limit is shown whole,
    and the stack trace is shown only when there is a non-empty one. *)
Theorem errorFields_within_limit (errorMessage : string)
    (errorStack : option string) :
  let fields := NotificationService.errorFields errorMessage errorStack in
  Forall (fun field =>
            (String.length (NotificationService.value field) <= 1024)%nat) fields
  /\ (1 <= List.length fields <= 2)%nat
  /\ ((String.length errorMessage <= 1024)%nat ->
      map NotificationService.value (firstn 1 fields) = [errorMessage])
  /\ (List.length fields = 2%nat
      <-> exists stack, errorStack = Some stack /\ stack <> ""%string).
Proof.
  unfold NotificationService.errorFields, NotificationService.firstChars.
  assert (Hlen : forall s, (String.length (substring 0 1024 s) <= 1024)%nat)
    by (intros s; apply length_substring_le).
  destruct errorStack as [stack|].
  - destruct (String.eqb_spec stack "") as [Heq | Hne]; cbn zeta.
    + split; [constructor; [apply Hlen | constructor]|].
      split; [cbn [List.length]; lia|].
      split; [intros H; cbn [firstn map NotificationService.value];
              rewrite substring_all by exact H; reflexivity|].
      cbn [List.length]. split; [lia|]. intros (s & Hs & Hne). congruence.
    + split; [constructor; [apply Hlen | constructor; [apply Hlen | constructor]]|].
      split; [cbn [List.length app]; lia|].
      split; [intros H; cbn [firstn map app NotificationService.value];
              rewrite substring_all by exact H; reflexivity|].
      cbn [List.length app]. split; [|reflexivity]. intros _. exists stack. auto.
  - cbn zeta.
    split; [constructor; [apply Hlen | constructor]|].
    split; [cbn [List.length]; lia|].
    split; [intros H; cbn [firstn map NotificationService.value];
            rewrite substring_all by exact H; reflexivity|].
    cbn [List.length]. split; [lia|]. intros (s & Hs & _). discriminate.
Qed.

Lemma errorFields_within_limit_witness :
  map NotificationService.value
      (firstn 1 (NotificationService.errorFields "network down"
                                                 (Some "at main"%string)))
  = ["network down"%string].
Proof.
  apply (proj1 (proj2 (proj2 (errorFields_within_limit "network down"
                                (Some "at main"%string))))).
  cbn. lia.
Defined.

(** The test in [sendPriceUpdateNotification] is the negation of the
    in-range test of [isPositionInRange] on the same bounds. *)
Theorem priceOutside_is_not_in_range (current : R) (position : Position) :
  NotificationService.priceOutside current (p_lowerPrice position)
                                   (p_upperPrice position)
  = negb (inRangeAt current position).
Proof.
  unfold NotificationService.priceOutside, inRangeAt, Rltb, Rgtb, Rgeb, Rleb.
  destruct (Rlt_dec current (p_lowerPrice position));
    destruct (Rge_dec current (p_lowerPrice position));
    destruct (Rgt_dec current (p_upperPrice position));
    destruct (Rle_dec current (p_upperPrice position));
    cbn; try reflexivity; exfalso; lra.
Qed.



(** ** The flag of the closing pass *)

Lemma withdrawals_app (a b : list Event) :
  withdrawals (a ++ b) = withdrawals a ++ withdrawals b.
Proof. apply flat_map_app. Qed.

Lemma retryOnly_no_withdrawal (events : list Event) :
  retryOnly events -> withdrawals events = [].
Proof.
  induction 1 as [|ev rest Hev _ IH]; [reflexivity|].
  destruct ev; try contradiction; cbn; exact IH.
Qed.

Lemma closeOutOfRange_flag_runs (env : Env) (info : PoolInfo)
    (positions : list Position) :
  forall (positionClosed : bool) (w : World),
  poolInfo w = Some info ->
  exists closed events w',
    LiquidityManager.closeOutOfRange env positions positionClosed w
    = (Returned closed, w')
    /\ extends events w w'
    /\ closed = positionClosed || (0 <? List.length (withdrawals events))%nat
    /\ incl (withdrawals events) (closeCalls events).
Proof.
  induction positions as [|position rest IH]; intros positionClosed w Hinfo.
  - exists positionClosed, [], w. split; [reflexivity|].
    split; [apply extends_refl|]. cbn. rewrite orb_false_r.
    split; [reflexivity | apply incl_refl].
  - cbn [LiquidityManager.closeOutOfRange]. unfold bind at 1.
    rewrite (isPositionInRange_loaded env w info position Hinfo).
    destruct (inRangeAt (getCurrencyAmount env (sqrtPriceX64 info)) position);
      cbn [negb].
    + unfold bind at 1. unfold bind at 1. unfold log. rewrite emit_record.
      unfold ret at 1.
      destruct (IH positionClosed (record [EvLog "Position is in range, keeping"] w))
        as (closed & events & w' & Hrun & Hext & Hflag & Hincl);
        [exact Hinfo|].
      exists closed, ([EvLog "Position is in range, keeping"] ++ events), w'.
      split; [exact Hrun|].
      split; [eapply extends_trans; [apply extends_record | exact Hext]|].
      rewrite withdrawals_app, closeCalls_app. cbn [withdrawals closeCalls flat_map app].
      split; [exact Hflag | exact Hincl].
    + unfold bind at 1. unfold bind at 1. unfold log at 1. rewrite emit_record.
      unfold tryCatch, bind at 1.
      destruct (closePosition_runs env (positionId position)
                  (record [EvLog "Position is out of range, closing"] w))
        as (r & sub & w1 & Hrun1 & Hext1 & Hretry).
      rewrite Hrun1.
      pose proof (extends_trans _ _ _ _ _
                    (extends_record [EvLog "Position is out of range, closing"] w)
                    Hext1) as Hext01.
      pose proof (retryOnly_no_withdrawal sub Hretry) as Hs.
      destruct (retryOnly_silent sub Hretry) as (Hs1 & _ & _).
      destruct r as [signature | error].
      * unfold notify, bind. rewrite !emit_record, !record_app. unfold ret at 1.
        match goal with
        | |- context [LiquidityManager.closeOutOfRange env rest true ?w2] =>
            destruct (IH true w2)
              as (closed & events & w' & Hrun & Hext & Hflag & Hincl);
            [rewrite <- Hinfo;
             apply (extends_poolInfo _ _ _
                      (extends_trans _ _ _ _ _ Hext01 (extends_record _ w1)))|];
            exists closed; eexists; exists w';
            split; [exact Hrun|];
            split; [exact (extends_trans _ _ _ _ _
                             (extends_trans _ _ _ _ _ Hext01 (extends_record _ w1))
                             Hext)|]
        end.
        rewrite !withdrawals_app, !closeCalls_app.
        change (withdrawals (EvClosePosition ?i :: ?l)) with (withdrawals l).
        change (closeCalls (EvClosePosition ?i :: ?l)) with (i :: closeCalls l).
        rewrite Hs, Hs1. cbn [withdrawals closeCalls flat_map app List.length].
        split.
        -- rewrite Hflag. cbn. rewrite orb_true_r. reflexivity.
        -- intros id [<- | Hin]; [left; reflexivity | right; apply Hincl, Hin].
      * unfold log, notify, bind. rewrite !emit_record, !record_app. unfold ret at 1.
        match goal with
        | |- context [LiquidityManager.closeOutOfRange env rest positionClosed ?w2] =>
            destruct (IH positionClosed w2)
              as (closed & events & w' & Hrun & Hext & Hflag & Hincl);
            [rewrite <- Hinfo;
             apply (extends_poolInfo _ _ _
                      (extends_trans _ _ _ _ _ Hext01 (extends_record _ w1)))|];
            exists closed; eexists; exists w';
            split; [exact Hrun|];
            split; [exact (extends_trans _ _ _ _ _
                             (extends_trans _ _ _ _ _ Hext01 (extends_record _ w1))
                             Hext)|]
        end.
        rewrite !withdrawals_app, !closeCalls_app.
        change (withdrawals (EvClosePosition ?i :: ?l)) with (withdrawals l).
        change (closeCalls (EvClosePosition ?i :: ?l)) with (i :: closeCalls l).
        rewrite Hs, Hs1. cbn [withdrawals closeCalls flat_map app List.length].
        split.
        -- exact Hflag.
        -- intros id Hin. right. apply Hincl, Hin.
Qed.

(** The closing pass returns [true] exactly when it was started with
    [true] or sent at least one withdrawn notification, that is, when some
    close succeeded; a failed close leaves the flag as it was.  Every
    withdrawn notification is for a position the pass tried to close. *)
Theorem closeOutOfRange_flag (env : Env) (info : PoolInfo)
    (positions : list Position) (positionClosed : bool) (w : World) :
  poolInfo w = Some info ->
  exists closed events w',
    LiquidityManager.closeOutOfRange env positions positionClosed w
    = (Returned closed, w')
    /\ extends events w w'
    /\ closed = positionClosed || (0 <? List.length (withdrawals events))%nat
    /\ incl (withdrawals events) (closeCalls events).
Proof. apply closeOutOfRange_flag_runs. Qed.

Lemma closeOutOfRange_flag_witness :
  exists closed events w',
    LiquidityManager.closeOutOfRange sampleEnv samplePositions false warmWorld
    = (Returned closed, w')
    /\ extends events warmWorld w'
    /\ closed = false || (0 <? List.length (withdrawals events))%nat
    /\ incl (withdrawals events) (closeCalls events).
Proof.
  apply (closeOutOfRange_flag sampleEnv samplePool samplePositions false warmWorld).
  reflexivity.
Defined.
